(** * The eBay product scraper ([app/services/ebay-scraper.server.ts])

    A shallow embedding of [scrapeEbayProduct] and of its helpers
    [formatEbayVariants], [extractItemId] and [createScraperError], and the
    properties of the import pipeline proved on it.

    Conventions of the embedding.
    - A JavaScript string is a sequence of UTF-16 code units.  The model covers
      the strings whose code units are below 256 (Latin-1), one [ascii] per
      code unit; [trim] and [toLowerCase] follow ECMAScript on that range.
    - A JavaScript number is an IEEE 754 binary64, Rocq's primitive [float].
    - A value decoded from JSON is a [value]; reading a property that is absent
      gives [VUndefined].
    - A thrown exception is the [Throw] case of [result]; [try]/[catch] is a
      match on it.  The result of [scrapeEbayProduct] is a [result] too: [Ok]
      when its promise resolves, [Throw] when it rejects.
    - The outbound HTTP call is an oracle [post]; the requests that were sent
      are returned next to the result.

    The last part covers [parsePrice] of the same file and the pure logic of
    two pages: the filter and the selection of the history page, and the form
    of the settings page with the action that decodes it. *)

From Stdlib Require Import String Ascii List PrimFloat Lia.
From stdpp Require Import base option list strings pretty gmap.

Open Scope string_scope.
Open Scope list_scope.

(** ** Strings *)

Module JsString.

Definition code (c : ascii) : nat := nat_of_ascii c.

(** [\d] of a regular expression without the [u] flag: [0-9]. *)
Definition is_digit (c : ascii) : bool :=
  ((48 <=? code c) && (code c <=? 57))%nat.

(** WhiteSpace and LineTerminator code units below 256: TAB, LF, VT, FF, CR,
    SP and NBSP. *)
Definition is_white (c : ascii) : bool :=
  (((9 <=? code c) && (code c <=? 13)) || (code c =? 32) || (code c =? 160))%nat.

(** The simple lower-case mapping on Latin-1: [A-Z], and U+00C0..U+00DE
    without the multiplication sign U+00D7. *)
Definition lower (c : ascii) : ascii :=
  let n := code c in
  if (((65 <=? n) && (n <=? 90))
      || ((192 <=? n) && (n <=? 222) && negb (n =? 215)))%nat
  then ascii_of_nat (n + 32)
  else c.

Fixpoint toLowerCase (s : string) : string :=
  match s with
  | EmptyString => EmptyString
  | String c t => String (lower c) (toLowerCase t)
  end.

Definition startsWith (s p : string) : bool := String.prefix p s.

Fixpoint includes (s p : string) : bool :=
  String.prefix p s
  || match s with
     | EmptyString => false
     | String _ t => includes t p
     end.

Fixpoint trimStart (s : string) : string :=
  match s with
  | EmptyString => EmptyString
  | String c t => if is_white c then trimStart t else s
  end.

Fixpoint trimEnd (s : string) : string :=
  match s with
  | EmptyString => EmptyString
  | String c t =>
      match trimEnd t with
      | EmptyString => if is_white c then EmptyString else String c EmptyString
      | t' => String c t'
      end
  end.

Definition trim (s : string) : string := trimEnd (trimStart s).

(** The longest prefix of digits, and what follows it (a greedy [\d*]). *)
Fixpoint span_digits (s : string) : string * string :=
  match s with
  | EmptyString => (EmptyString, EmptyString)
  | String c t =>
      if is_digit c
      then let '(ds, rest) := span_digits t in (String c ds, rest)
      else (EmptyString, s)
  end.

(** What follows the literal [p] at the start of [s]. *)
Fixpoint strip_prefix (p s : string) : option string :=
  match p, s with
  | EmptyString, _ => Some s
  | String a p', String b s' => if Ascii.eqb a b then strip_prefix p' s' else None
  | String _ _, EmptyString => None
  end.

(** The same under the [i] flag, for a lower-case ASCII [p]: on Latin-1 a
    code unit is canonicalized to an ASCII letter only from that letter in
    either case. *)
Fixpoint strip_prefix_ci (p s : string) : option string :=
  match p, s with
  | EmptyString, _ => Some s
  | String a p', String b s' =>
      if Ascii.eqb a (lower b) then strip_prefix_ci p' s' else None
  | String _ _, EmptyString => None
  end.

(** The leftmost position where the anchored matcher [at_start] succeeds,
    as a regular expression without the [g] flag searches. *)
Fixpoint first_match {A : Type} (at_start : string -> option A) (s : string)
  : option A :=
  match at_start s with
  | Some a => Some a
  | None =>
      match s with
      | EmptyString => None
      | String _ t => first_match at_start t
      end
  end.

(** [s.replace(re, replacement)] for a replacement without [$]: [at_start]
    gives what follows the match. *)
Fixpoint replace_first (at_start : string -> option string)
    (replacement s : string) : string :=
  match at_start s with
  | Some rest => replacement +:+ rest
  | None =>
      match s with
      | EmptyString => EmptyString
      | String c t => String c (replace_first at_start replacement t)
      end
  end.

(** [s.replace(/,/g, "")] *)
Fixpoint remove_commas (s : string) : string :=
  match s with
  | EmptyString => EmptyString
  | String c t => if Ascii.eqb c "," then remove_commas t else String c (remove_commas t)
  end.

(** [parts.join(sep)] on strings. *)
Fixpoint join (sep : string) (parts : list string) : string :=
  match parts with
  | [] => EmptyString
  | [p] => p
  | p :: rest => p +:+ sep +:+ join sep rest
  end.

End JsString.

Import JsString.

(** ** Values *)

(** What [JSON.parse] produces, and [undefined] for an absent property.  An
    object is the list of its own properties in the order [Object.entries]
    enumerates them. *)
#[warnings="-register-all"]
Inductive value : Type :=
| VUndefined
| VNull
| VBool (b : bool)
| VNum (x : float)
| VStr (s : string)
| VArr (elems : list value)
| VObj (props : list (string * value)).

(** What can be thrown inside the [try] block. *)
#[warnings="-register-all"]
Inductive exn : Type :=
| ScraperError (message code : string)
    (* [createScraperError(message, code)] *)
| TypeError (message : string)
    (* raised by the runtime; the text is the engine's *)
| AxiosError (message : string) (response_data : option value)
    (* a rejected request; [response_data] is [error.response.data] when the
       server answered *)
| Thrown (v : value).
    (* anything that is not an [Error] *)

Inductive result (A : Type) : Type :=
| Ok (a : A)
| Throw (e : exn).
Arguments Ok {A} a.
Arguments Throw {A} e.

#[global] Instance result_ret : MRet result := fun _ a => Ok a.
#[global] Instance result_bind : MBind result := fun _ _ f m =>
  match m with
  | Ok a => f a
  | Throw e => Throw e
  end.

Fixpoint fold_leftM {A B : Type} (f : A -> B -> result A) (l : list B) (a : A)
  : result A :=
  match l with
  | [] => Ok a
  | b :: t => a' ← f a b; fold_leftM f t a'
  end.

Definition isNaN (x : float) : bool := negb (PrimFloat.eqb x x).

(** ToBoolean. *)
Definition truthy (v : value) : bool :=
  match v with
  | VUndefined | VNull => false
  | VBool b => b
  | VNum x => negb (PrimFloat.eqb x 0%float) && negb (isNaN x)
  | VStr s => negb (String.eqb s "")
  | VArr _ | VObj _ => true
  end.

(** [a || b] *)
Definition or_else (a b : value) : value := if truthy a then a else b.

Fixpoint lookup_prop (p : string) (props : list (string * value)) : value :=
  match props with
  | [] => VUndefined
  | (k, v) :: rest => if String.eqb k p then v else lookup_prop p rest
  end.

(** [v.p] for the data properties this program reads.  None of them is
    defined on [Boolean.prototype], [Number.prototype] or [Object.prototype];
    [String.prototype] and [Array.prototype] define none of them either,
    [length] and the method [values] of arrays apart: [length] is compared
    by [length_is_zero], [values] is read by [optionValues]. *)
Definition get (v : value) (p : string) : result value :=
  match v with
  | VUndefined =>
      Throw (TypeError ("Cannot read properties of undefined (reading '" +:+ p +:+ "')"))
  | VNull =>
      Throw (TypeError ("Cannot read properties of null (reading '" +:+ p +:+ "')"))
  | VObj props => Ok (lookup_prop p props)
  | _ => Ok VUndefined
  end.

(** [v?.p] *)
Definition get_opt (v : value) (p : string) : value :=
  match v with
  | VObj props => lookup_prop p props
  | _ => VUndefined
  end.

(** [v.length === 0] for a [v] that is neither [null] nor [undefined]. *)
Definition length_is_zero (v : value) : bool :=
  match v with
  | VArr elems => match elems with [] => true | _ => false end
  | VStr s => String.eqb s ""
  | VObj props =>
      match lookup_prop "length" props with
      | VNum x => PrimFloat.eqb x 0%float
      | _ => false
      end
  | _ => false
  end.

Definition indexed {A : Type} (l : list A) : list (string * A) :=
  imap (fun i x => (pretty i, x)) l.

Definition chars (s : string) : list value :=
  map (fun c => VStr (String c EmptyString)) (list_ascii_of_string s).

(** [Object.entries(v)] *)
Definition entries (v : value) : result (list (string * value)) :=
  match v with
  | VUndefined | VNull => Throw (TypeError "Cannot convert undefined or null to object")
  | VBool _ | VNum _ => Ok []
  | VStr s => Ok (indexed (chars s))
  | VArr elems => Ok (indexed elems)
  | VObj props => Ok props
  end.

(** The receiver of an array method ([forEach], [filter], [map]): anything
    but an array has no such method, or a property that is not callable. *)
Definition as_array (v : value) (method : string) : result (list value) :=
  match v with
  | VArr elems => Ok elems
  | _ => Throw (TypeError (method +:+ " is not a function"))
  end.

(** The receiver [v], written [receiver] in the source, of the string method
    [method] ([trim], [startsWith], [replace]). *)
Definition as_string (v : value) (receiver method : string) : result string :=
  match v with
  | VStr s => Ok s
  | VUndefined =>
      Throw (TypeError ("Cannot read properties of undefined (reading '" +:+ method +:+ "')"))
  | VNull =>
      Throw (TypeError ("Cannot read properties of null (reading '" +:+ method +:+ "')"))
  | _ => Throw (TypeError (receiver +:+ "." +:+ method +:+ " is not a function"))
  end.

(** ** The product model ([~/types]) *)

Record ProductOption : Type := {
  name : string;
  values : list string;
}.

(** A variant as [formatEbayVariants] builds it has no [price] property. *)
Record ProductVariant : Type := {
  v_itemId : string;
  v_options : gmap string string;
  v_available : bool;
  v_price : option value;
}.

(** The object [{ options, variants }] that [formatEbayVariants] returns. *)
Record VariantsData : Type := {
  vd_options : list ProductOption;
  vd_variants : list ProductVariant;
}.

(** ** [formatEbayVariants] *)

(** [optionData && optionData.values && Array.isArray(optionData.values)]:
    the array under [values], when the guard holds.  An array is always
    truthy.  On an array [values] is the iterator method, which is truthy but
    no array; on a string, a number or a boolean it is [undefined]. *)
Definition optionValues (optionData : value) : option (list value) :=
  match optionData with
  | VObj props =>
      match lookup_prop "values" props with
      | VArr raw => Some raw
      | _ => None
      end
  | _ => None
  end.

Definition out_of_stock (v : string) : bool :=
  includes (toLowerCase v) "out of stock".

(** The callback of the inner [forEach]: both arrays receive the same push. *)
Definition parseEntry (acc : list ProductOption * list ProductOption)
    (entry : string * value) : result (list ProductOption * list ProductOption) :=
  let '(productOptions, allOptionValues) := acc in
  let '(optionName, optionData) := entry in
  match optionValues optionData with
  | Some raw =>
      trimmed ← mapM (fun v => s ← as_string v "v" "trim"; mret (trim s)) raw;
      let availableValues := List.filter (fun v => negb (out_of_stock v)) trimmed in
      if (0 <? length availableValues)%nat
      then Ok (productOptions ++ [{| name := optionName; values := availableValues |}],
               allOptionValues ++ [{| name := optionName; values := availableValues |}])
      else Ok acc
  | None => Ok acc
  end.

(** The callback of the outer [forEach]. *)
Definition parseOption (acc : list ProductOption * list ProductOption)
    (optionObj : value) : result (list ProductOption * list ProductOption) :=
  es ← entries optionObj;
  fold_leftM parseEntry es acc.

(** [generateCombinations(optionIndex, currentOptions)]; [remaining] is
    [allOptionValues] from [optionIndex] on, and the array [variants] the
    closure pushes to is threaded through. *)
Fixpoint generateCombinations (remaining : list ProductOption)
    (currentOptions : gmap string string) (variants : list ProductVariant)
  : list ProductVariant :=
  match remaining with
  | [] =>
      variants ++ [{| v_itemId := ""; v_options := currentOptions;
                      v_available := true; v_price := None |}]
  | currentOption :: rest =>
      fold_left
        (fun variants value =>
           generateCombinations rest (<[name currentOption := value]> currentOptions) variants)
        (values currentOption) variants
  end.

Definition formatEbayVariants (options : value) : result VariantsData :=
  if negb (truthy options) || length_is_zero options
  then Ok {| vd_options := []; vd_variants := [] |}
  else
    elems ← as_array options "options.forEach";
    '(productOptions, allOptionValues) ← fold_leftM parseOption elems ([], []);
    if (length allOptionValues =? 0)%nat
    then Ok {| vd_options := []; vd_variants := [] |}
    else Ok {| vd_options := productOptions;
               vd_variants := generateCombinations allOptionValues ∅ [] |}.

(** ** [extractItemId] *)

(** [/\/itm\/(\d+)/i] anchored at the start of [s]: the captured digits. *)
Definition match_itm (s : string) : option string :=
  match strip_prefix_ci "/itm/" s with
  | Some t =>
      match span_digits t with
      | (EmptyString, _) => None
      | (ds, _) => Some ds
      end
  | None => None
  end.

Definition extractItemId (url : string) : option string :=
  first_match match_itm url.

(** ** [createScraperError] *)

Definition createScraperError (message code : string) : exn :=
  ScraperError message code.

(** ** Images (lines 172-185) *)

(** [/\/s-l\d+\./] anchored at the start of [s]: what follows the match. *)
Definition match_thumbnail (s : string) : option string :=
  match strip_prefix "/s-l" s with
  | Some t =>
      match span_digits t with
      | (String _ _, String c rest) => if Ascii.eqb c "." then Some rest else None
      | _ => None
      end
  | None => None
  end.

(** The callback of [map]: thumbnail URLs to high resolution. *)
Definition highResolution (img : string) : string :=
  if includes img "/s-l" && includes img ".jpg"
  then replace_first match_thumbnail "/s-l1600." img
  else img.

(** [.filter((img) => img && img.startsWith("http"))]: what passes is a
    string. *)
Fixpoint filterImages (imgs : list value) : result (list string) :=
  match imgs with
  | [] => Ok []
  | img :: rest =>
      if truthy img
      then
        s ← as_string img "img" "startsWith";
        kept ← filterImages rest;
        mret (if startsWith s "http" then s :: kept else kept)
      else filterImages rest
  end.

Definition formatImages (apiData : value) : result (list value) :=
  imgs ← get apiData "images";
  if truthy imgs
  then
    elems ← as_array imgs "apiData.images.filter";
    kept ← filterImages elems;
    mret (map (fun img => VStr (highResolution img)) kept)
  else
    mainImage ← get apiData "mainImage";
    mret (if truthy mainImage then [mainImage] else []).

(** ** The scraped product ([~/types]) *)

Record ScrapedProduct : Type := {
  itemId : string;
  title : value;
  description : value;
  price : value;
  currency : value;
  images : list value;
  options : list ProductOption;
  variants : list ProductVariant;
  ebayUrl : value;
  specifications : option (gmap string value);
  bulletPoints : option (list string);
  rating : option float;
  ratingsTotal : option float;
  categories : list value;
  availability : value;
}.

(** The object [scrapeEbayProduct] resolves to:
    [{ success: boolean; data?: ScrapedProduct; error?: string }]. *)
Record ScrapeResult : Type := {
  success : bool;
  data : option ScrapedProduct;
  error : option string;
}.

(** ** The request ([axios.post], lines 123-136) *)

Record Request : Type := {
  endpoint : string;
  body_url : string;
  x_rapidapi_host : string;
  x_rapidapi_key : string;
  timeout : N;
}.

(** How the request settles: [response.data] of the answer, or the rejection. *)
Inductive Outcome : Type :=
| Resolved (response_data : value)
| Rejected (e : exn).

Definition strict_equal_number (v : value) (n : float) : bool :=
  match v with
  | VNum x => PrimFloat.eqb x n
  | _ => false
  end.

(** [Object.keys(v).length === 0] for a truthy [v]. *)
Definition keys_empty (v : value) : bool :=
  match v with
  | VArr elems => match elems with [] => true | _ => false end
  | VObj props => match props with [] => true | _ => false end
  | VStr s => String.eqb s ""
  | _ => true
  end.

Definition INCOMPLETE_MESSAGE : string :=
  "Incomplete product data received from eBay. The product may not be available for sale. Please try a different product URL.".

Definition KEY_MISSING_MESSAGE : string :=
  "RapidAPI key is required. Please add it in Settings or set RAPIDAPI_KEY environment variable.".

Definition FETCH_FAILED_MESSAGE : string :=
  "Failed to fetch product data from eBay. Please check if the URL is valid and the product is available.".

Definition NOT_FOUND_MESSAGE : string :=
  "Product not found. This could mean: 1) The item doesn't exist or is no longer available on eBay, 2) Your RapidAPI key has reached its request limit. Please check your RapidAPI dashboard at https://rapidapi.com/hub and verify your subscription status.".

(** Lines 158-167: the check of the essential product data. *)
Definition checkEssential (apiData : value) : result unit :=
  hasTitle ← get apiData "title";
  price ← get apiData "price";
  let hasPrice := get_opt price "value" in
  if negb (truthy hasTitle) || negb (truthy hasPrice)
  then Throw (createScraperError INCOMPLETE_MESSAGE "API_ERROR")
  else Ok ().

(** Lines 141-167: the envelope's two statuses, the empty body, the essential
    data.  The result is [apiData]. *)
Definition validateResponse (response_data : value) : result value :=
  original_status ← get response_data "original_status";
  pc_status ← get response_data "pc_status";
  if negb (strict_equal_number original_status 200)
     || negb (strict_equal_number pc_status 200)
  then Throw (createScraperError FETCH_FAILED_MESSAGE "API_ERROR")
  else
    apiData ← get response_data "body";
    if negb (truthy apiData) || keys_empty apiData
    then Throw (createScraperError NOT_FOUND_MESSAGE "API_ERROR")
    else
      _ ← checkEssential apiData;
      mret apiData.

(** The final mapping of the variants (lines 223-226):
    [{ ...variant, price: variant.price || basePrice }]. *)
Definition withPrice (basePrice : value) (variant : ProductVariant) : ProductVariant :=
  {| v_itemId := v_itemId variant;
     v_options := v_options variant;
     v_available := v_available variant;
     v_price := Some (or_else (default VUndefined (v_price variant)) basePrice) |}.

Definition CONVERSION_MESSAGE : string := "Cannot convert object to primitive value".

(** Whether ToString returns on [v]: no object with an own property
    [toString] is reached, in [v] itself or through the elements of arrays. *)
Fixpoint convertible (v : value) : bool :=
  match v with
  | VObj props => negb (existsb (fun prop => String.eqb (fst prop) "toString") props)
  | VArr elems => forallb convertible elems
  | _ => true
  end.

Section Scraper.

(** Built-ins of the runtime that the embedding does not define: the
    conversion of a number to a string, [parseFloat] and [parseInt] on a
    string. *)
Variable numberToString : float -> string.
Variable parseFloat : string -> float.
Variable parseInt : string -> float.

(** The string that ToString gives, when it gives one (see [ToString]). *)
Fixpoint toString (v : value) : string :=
  match v with
  | VUndefined => "undefined"
  | VNull => "null"
  | VBool b => if b then "true" else "false"
  | VNum x => numberToString x
  | VStr s => s
  | VArr elems =>
      join ","
        (map (fun e => match e with
                       | VUndefined | VNull => EmptyString
                       | _ => toString e
                       end) elems)
  | VObj _ => "[object Object]"
  end.

(** ToString, as a template literal, [String], [parseFloat] and a property
    key apply it.  On an object it calls [toString], then [valueOf]: an
    object decoded from JSON that has an own property [toString] holds no
    function there, and the inherited [valueOf] returns the object itself, so
    the conversion throws; without such a property the inherited [toString]
    answers.  An array joins the conversions of its elements. *)
Definition ToString (v : value) : result string :=
  if convertible v
  then Ok (toString v)
  else Throw (TypeError CONVERSION_MESSAGE).

(** [`${info.name}: ${info.value}`] *)
Definition infoLine (info : value) : result string :=
  n ← get info "name";
  name_text ← ToString n;
  v ← get info "value";
  value_text ← ToString v;
  mret (name_text +:+ ": " +:+ value_text).

(** Lines 187-195. *)
Definition formatDescription (apiData : value) : result value :=
  d ← get apiData "description";
  let description := or_else d (VStr "") in
  productInformation ← get apiData "productInformation";
  if negb (truthy description) && truthy productInformation
  then
    infos ← as_array productInformation "apiData.productInformation.map";
    lines ← mapM infoLine infos;
    mret (VStr (join (String "010" EmptyString) lines))
  else mret description.

(** [(info) => [info.name, info.value]] *)
Definition infoEntry (info : value) : result (value * value) :=
  n ← get info "name";
  v ← get info "value";
  mret (n, v).

(** The property key that [Object.fromEntries] makes of an entry's first
    component, once [map] has returned all the entries. *)
Definition entryKey (entry : value * value) : result (string * value) :=
  key ← ToString entry.1;
  mret (key, entry.2).

(** A later entry replaces an earlier one of the same key. *)
Definition fromEntries (es : list (string * value)) : gmap string value :=
  fold_left (fun m e => <[e.1 := e.2]> m) es ∅.

Definition formatSpecifications (apiData : value)
  : result (option (gmap string value)) :=
  productInformation ← get apiData "productInformation";
  if truthy productInformation
  then
    infos ← as_array productInformation "apiData.productInformation.map";
    entries ← mapM infoEntry infos;
    es ← mapM entryKey entries;
    mret (Some (fromEntries es))
  else mret None.

(** [apiData.productInformation?.map(...)]: only [null] and [undefined]
    stop the optional chain. *)
Definition formatBulletPoints (apiData : value) : result (option (list string)) :=
  productInformation ← get apiData "productInformation";
  match productInformation with
  | VUndefined | VNull => mret None
  | _ =>
      infos ← as_array productInformation "apiData.productInformation?.map";
      lines ← mapM infoLine infos;
      mret (Some lines)
  end.

(** [apiData.breadCrumbs?.map((crumb) => crumb.name) || []] *)
Definition formatCategories (apiData : value) : result (list value) :=
  breadCrumbs ← get apiData "breadCrumbs";
  match breadCrumbs with
  | VUndefined | VNull => mret []
  | _ =>
      crumbs ← as_array breadCrumbs "apiData.breadCrumbs?.map";
      mapM (fun crumb => get crumb "name") crumbs
  end.

Definition formatRating (apiData : value) : result (option float) :=
  ratings ← get apiData "ratings";
  if truthy ratings
  then
    text ← ToString ratings;
    mret (Some (parseFloat text))
  else mret None.

Definition formatReviewsCount (apiData : value) : result (option float) :=
  reviewsCount ← get apiData "reviewsCount";
  if truthy reviewsCount
  then
    s ← as_string reviewsCount "apiData.reviewsCount" "replace";
    mret (Some (parseInt (remove_commas s)))
  else mret None.

Definition formatAvailability (apiData : value) : result value :=
  availableQuantity ← get apiData "availableQuantity";
  if truthy availableQuantity
  then
    quantity ← ToString availableQuantity;
    mret (VStr (quantity +:+ " available"))
  else
    condition ← get apiData "condition";
    mret (or_else condition (VStr "Available")).

(** Lines 169-240: from the validated body to the product. *)
Definition normalize (ebayUrl itemId : string) (apiData : value)
  : result ScrapedProduct :=
  price ← get apiData "price";
  value ← get price "value";
  let basePrice := or_else value (VNum 0) in
  images ← formatImages apiData;
  description ← formatDescription apiData;
  options ← get apiData "options";
  variantsData ← formatEbayVariants (or_else options (VArr []));
  rating ← formatRating apiData;
  reviewsCount ← formatReviewsCount apiData;
  categories ← formatCategories apiData;
  title ← get apiData "title";
  currency ← get price "currency";
  url ← get apiData "url";
  specifications ← formatSpecifications apiData;
  bulletPoints ← formatBulletPoints apiData;
  availability ← formatAvailability apiData;
  mret {| itemId := itemId;
          title := title;
          description := or_else description (VStr "No description available");
          price := basePrice;
          currency := or_else currency (VStr "USD");
          images := images;
          options := vd_options variantsData;
          variants := map (withPrice basePrice) (vd_variants variantsData);
          ebayUrl := or_else url (VStr ebayUrl);
          specifications := specifications;
          bulletPoints := bulletPoints;
          rating := rating;
          ratingsTotal := reviewsCount;
          categories := categories;
          availability := availability |}.

(** What the environment of one call provides: [process.env.RAPIDAPI_KEY]
    and the remote service. *)
Variable RAPIDAPI_KEY : option string.
Variable post : Request -> Outcome.

(** [apiKey || process.env.RAPIDAPI_KEY] *)
Definition rapidApiKey (apiKey : option string) : option string :=
  match apiKey with
  | Some k => if String.eqb k "" then RAPIDAPI_KEY else Some k
  | None => RAPIDAPI_KEY
  end.

Definition request (ebayUrl key : string) : Request :=
  {| endpoint := "https://real-time-ebay-data.p.rapidapi.com/product.php";
     body_url := ebayUrl;
     x_rapidapi_host := "real-time-ebay-data.p.rapidapi.com";
     x_rapidapi_key := key;
     timeout := 30000%N |}.

(** The [try] block (lines 93-245), with the requests it sent. *)
Definition try_block (ebayUrl : string) (apiKey : option string)
  : result ScrapedProduct * list Request :=
  if negb (includes ebayUrl "ebay.")
  then (Throw (createScraperError "Invalid eBay URL" "INVALID_URL"), [])
  else
    match extractItemId ebayUrl with
    | None | Some EmptyString =>
        (Throw (createScraperError "Could not extract Item ID from URL" "INVALID_URL"), [])
    | Some itemId =>
        match rapidApiKey apiKey with
        | None | Some EmptyString =>
            (Throw (createScraperError KEY_MISSING_MESSAGE "API_KEY_MISSING"), [])
        | Some key =>
            let sent := request ebayUrl key in
            (match post sent with
             | Rejected e => Throw e
             | Resolved response_data =>
                 apiData ← validateResponse response_data;
                 normalize ebayUrl itemId apiData
             end, [sent])
        end
    end.

(** The [catch] block (lines 246-264).  It is outside every [try]: what
    the template literal throws leaves the function. *)
Definition catch_block (e : exn) : result ScrapeResult :=
  match e with
  | AxiosError message response_data =>
      let message :=
        or_else (get_opt (default VUndefined response_data) "message") (VStr message) in
      text ← ToString message;
      mret {| success := false; data := None;
              error := Some ("Failed to fetch eBay product: " +:+ text) |}
  | ScraperError message _ | TypeError message =>
      mret {| success := false; data := None; error := Some message |}
  | Thrown _ =>
      mret {| success := false; data := None;
              error := Some "Failed to fetch eBay product data" |}
  end.

(** [Ok r]: the promise resolves to [r]; [Throw e]: it rejects with [e]. *)
Definition scrapeEbayProduct (ebayUrl : string) (apiKey : option string)
  : result ScrapeResult * list Request :=
  let '(r, sent) := try_block ebayUrl apiKey in
  (match r with
   | Ok productData =>
       Ok {| success := true; data := Some productData; error := None |}
   | Throw e => catch_block e
   end, sent).

End Scraper.

(** ** Notions the statements use *)

(** The product of the cardinalities of the options' value lists. *)
Definition cardinalities (opts : list ProductOption) : nat :=
  fold_right Nat.mul 1 (map (fun o => length (values o)) opts).

(** A descriptor in the format of the remote service,
    [{ "Color": { "values": [...], "selectedValue": "" } }]. *)
Definition descriptor (d : string * list string) : value :=
  VObj [(fst d, VObj [("values", VArr (map VStr (snd d))); ("selectedValue", VStr "")])].

(** The raw values of one descriptor, trimmed, without the out-of-stock ones. *)
Definition availableValues (raw : list string) : list string :=
  List.filter (fun v => negb (out_of_stock v)) (map trim raw).

(** The options that keep at least one value. *)
Definition surviving (ds : list (string * list string)) : list ProductOption :=
  List.filter (fun o => (0 <? length (values o))%nat)
    (map (fun d => {| name := fst d; values := availableValues (snd d) |}) ds).

(** The options that carry the name [k]. *)
Definition named (k : string) (opts : list ProductOption) : list ProductOption :=
  List.filter (fun o => String.eqb (name o) k) opts.

(** [raw] is the list of strings under [values] in an entry of the name
    [optionName] of an element of the array [options]. *)
Definition raw_values_of (options : value) (optionName : string) (raw : list string)
  : Prop :=
  exists elems optionObj es optionData,
    options = VArr elems
    /\ optionObj ∈ elems
    /\ entries optionObj = Ok es
    /\ (optionName, optionData) ∈ es
    /\ optionValues optionData = Some (map VStr raw).

Definition option_names (opts : list ProductOption) : gset string :=
  list_to_set (map name opts).

Fixpoint all_digits (s : string) : bool :=
  match s with
  | EmptyString => true
  | String c t => is_digit c && all_digits t
  end.

(** [url] holds [/itm/], in either case, and a digit right after it. *)
Definition has_item_path (url : string) : Prop :=
  exists pre m d post,
    url = pre +:+ m +:+ String d post /\ toLowerCase m = "/itm/" /\ is_digit d = true.

(** [s] holds the segment [/s-l<digits>.] between [pre] and [post]. *)
Definition thumbnail_at (s pre ds post : string) : Prop :=
  s = pre +:+ "/s-l" +:+ ds +:+ "." +:+ post /\ ds <> "" /\ all_digits ds = true.

(** ... and no such segment starts further left. *)
Definition first_thumbnail_at (s pre ds post : string) : Prop :=
  thumbnail_at s pre ds post
  /\ forall pre' ds' post', thumbnail_at s pre' ds' post' ->
       String.length pre <= String.length pre'.

(** The thumbnail pattern as the specification words it: a segment
    [/s-l<digits>.] followed by [.jpg], the dot of the segment being allowed
    to be the dot of [.jpg]. *)
Definition segment_then_jpg (s : string) : option unit :=
  match match_thumbnail s with
  | Some rest => if includes ("." +:+ rest) ".jpg" then Some () else None
  | None => None
  end.

Definition spec_thumbnail_pattern (s : string) : bool :=
  match first_match segment_then_jpg s with
  | Some _ => true
  | None => false
  end.

(** The entries of an image list that the filter keeps. *)
Definition http_entries (urls : list string) : list string :=
  List.filter (fun u => startsWith u "http") urls.

(** The envelope of a successful answer around [body]. *)
Definition envelope (body : value) : value :=
  VObj [("original_status", VNum 200); ("pc_status", VNum 200); ("body", body)].

(** ** Data of the examples *)

(** Stand-ins for the built-ins in the closed examples, none of which reaches
    a number conversion or a parse. *)
Definition unused_numberToString (x : float) : string := EmptyString.
Definition unused_parse (s : string) : float := 0%float.

Definition listing_url : string := "https://www.ebay.com/itm/123456789".

(** A remote service that answers every request with [body] in a successful
    envelope. *)
Definition answers (body : value) (sent : Request) : Outcome :=
  Resolved (envelope body).

(** [scrapeEbayProduct] on [listing_url] with the key ["k"] against a service
    that answers [body]. *)
Definition scrape_answer (body : value) : result ScrapeResult :=
  fst (scrapeEbayProduct unused_numberToString unused_parse unused_parse
         None (answers body) listing_url (Some "k")).

Definition price_of (x : float) : value :=
  VObj [("value", VNum x); ("currency", VStr "USD")].

(** A body with a title and the explicit price 0. *)
Definition zero_price_body : value :=
  VObj [("title", VStr "Widget"); ("price", price_of 0)].

(** A body with a price and no title. *)
Definition untitled_body : value :=
  VObj [("price", price_of 24.5)].

(** A body with title, price and the Color/Size options. *)
Definition widget_body : value :=
  VObj [("title", VStr "Widget"); ("price", price_of 24.5);
        ("options", VArr (map descriptor
                            [("Color", ["Black"; "Pink"; "Out of Stock"]);
                             ("Size", ["S"; "M"])]))].

(** A body without image list whose main image is a protocol-relative URL. *)
Definition relative_image_body : value :=
  VObj [("title", VStr "Widget"); ("price", price_of 24.5);
        ("mainImage", VStr "//i.ebayimg.com/images/g/abc/s-l500.jpg")].

(** A body without image list, with the main image of the specification. *)
Definition main_image_body : value :=
  VObj [("title", VStr "Widget"); ("price", price_of 24.5);
        ("mainImage", VStr "https://x/a.jpg")].

(** An image whose [.jpg] comes before the segment [/s-l500.]. *)
Definition jpg_before_segment : string := "http://x/a.jpg/s-l500.png".

(** A URL with an item path and no eBay marker, and an eBay URL without item
    path. *)
Definition foreign_url : string := "https://www.amazon.com/itm/123456789".
Definition search_url : string := "https://www.ebay.com/sch/i.html?_nkw=widget".

(** The input of the specification's example:
    [[{"Color": {"values": ["Black", "Pink", "Out of Stock"]}},
      {"Size": {"values": ["S", "M"]}}]]. *)
Definition color_size_options : value :=
  VArr [VObj [("Color", VObj [("values", VArr [VStr "Black"; VStr "Pink"; VStr "Out of Stock"])])];
        VObj [("Size", VObj [("values", VArr [VStr "S"; VStr "M"])])]].

(** Two colours, one to be trimmed, and three sizes. *)
Definition red_blue_sml : list (string * list string) :=
  [("Color", [" Red "; "Blue"]); ("Size", ["S"; "M"; "L"])].

(** Two descriptors of one name. *)
Definition color_twice : value :=
  VArr [descriptor ("Color", ["Red"]); descriptor ("Color", ["Blue"])].

Definition color_size : list (string * list string) :=
  [("Color", ["Black"; "Pink"; "Out of Stock"]); ("Size", ["S"; "M"])].

(** Raw values with a duplicate and a blank entry. *)
Definition red_twice_and_blank : value :=
  VArr [descriptor ("Color", ["Red"; " Red"; "  "])].

(** ** Notions of the proofs *)

(** What [generateCombinations] pushes: a variant without identifier and
    price, available, whose keys are those of [currentOptions] and the names
    that remained. *)
Definition pushed (keys : gset string) (v : ProductVariant) : Prop :=
  v_itemId v = "" /\ v_available v = true /\ v_price v = None
  /\ dom (v_options v) = keys.

(** An option as [parseEntry] pushes it. *)
Definition parsed (o : ProductOption) : Prop :=
  values o <> [] /\ exists raw, values o = availableValues raw.

Definition parse_inv (acc : list ProductOption * list ProductOption) : Prop :=
  fst acc = snd acc /\ Forall parsed (fst acc).

(** An exception that the code raises itself, a scraper error or a TypeError
    of the runtime, as opposed to the rejection of a request. *)
Definition internal (e : exn) : Prop :=
  match e with
  | ScraperError _ _ | TypeError _ => True
  | AxiosError _ _ | Thrown _ => False
  end.

Definition throws_internal {A : Type} (m : result A) : Prop :=
  forall e, m = Throw e -> internal e.

(** An option as [parseEntry] pushes it on an entry of [options]. *)
Definition parsed_from (options : value) (o : ProductOption) : Prop :=
  exists raw, raw_values_of options (name o) raw /\ values o = availableValues raw.

(** No suffix of [pre +:+ t] that starts inside [pre] matches [at_start]. *)
Fixpoint no_earlier (at_start : string -> option string) (pre t : string) : bool :=
  match pre with
  | EmptyString => true
  | String _ pre' =>
      match at_start (pre +:+ t) with
      | Some _ => false
      | None => no_earlier at_start pre' t
      end
  end.

(** ** The cartesian product, as a list of option maps *)

(** The option maps that extend [currentOptions] by one value for each of
    [opts], the first option varying slowest. *)
Fixpoint combinations (opts : list ProductOption)
    (currentOptions : gmap string string) : list (gmap string string) :=
  match opts with
  | [] => [currentOptions]
  | o :: rest =>
      values o ≫= (fun value => combinations rest (<[name o := value]> currentOptions))
  end.

(** The variant [generateCombinations] pushes for an option map. *)
Definition variantOf (selected : gmap string string) : ProductVariant :=
  {| v_itemId := ""; v_options := selected; v_available := true; v_price := None |}.

(** [s] does not start with a digit. *)
Definition no_leading_digit (s : string) : Prop :=
  match s with
  | EmptyString => True
  | String c _ => is_digit c = false
  end.

(** The key a call uses: the [apiKey] argument when it is not empty, else
    RAPIDAPI_KEY; it must not be empty. *)
Definition key_in_use (RAPIDAPI_KEY apiKey : option string) (key : string) : Prop :=
  key <> ""
  /\ (apiKey = Some key
      \/ ((apiKey = None \/ apiKey = Some "") /\ RAPIDAPI_KEY = Some key)).

Definition failure (message : string) : ScrapeResult :=
  {| success := false; data := None; error := Some message |}.

(** [`${info.name}: ${info.value}`] and the entry of [[info.name, info.value]]
    for an [info] that is neither [null] nor [undefined] and whose name and
    value have a conversion to a string. *)
Definition info_line (numberToString : float -> string) (info : value) : string :=
  toString numberToString (get_opt info "name") +:+ ": "
  +:+ toString numberToString (get_opt info "value").

Definition info_entry (numberToString : float -> string) (info : value)
  : string * value :=
  (toString numberToString (get_opt info "name"), get_opt info "value").

Definition newline : string := String "010" EmptyString.

(** A body with product information, one name given twice, and a reviews
    count with separators. *)
Definition detailed_body : value :=
  VObj [("title", VStr "Widget"); ("price", price_of 24.5);
        ("reviewsCount", VStr "1,234");
        ("productInformation",
         VArr [VObj [("name", VStr "Brand"); ("value", VStr "Acme")];
               VObj [("name", VStr "Colour"); ("value", VStr "Red")];
               VObj [("name", VStr "Brand"); ("value", VStr "Apex")]])].

(** The product of [detailed_body]. *)
Definition detailed_product : result ScrapedProduct :=
  normalize unused_numberToString unused_parse unused_parse
    listing_url "123456789" detailed_body.

(** A remote service that answers every request with [response_data], and
    one that rejects every request with [e]. *)
Definition answers_raw (response_data : value) (sent : Request) : Outcome :=
  Resolved response_data.

Definition rejects (e : exn) (sent : Request) : Outcome := Rejected e.

(** An envelope whose upstream status is 404. *)
Definition not_found_envelope : list (string * value) :=
  [("original_status", VNum 404); ("pc_status", VNum 200); ("body", VObj [])].

(** A successful envelope around a body without keys. *)
Definition empty_body_envelope : list (string * value) :=
  [("original_status", VNum 200); ("pc_status", VNum 200); ("body", VObj [])].

Definition timeout_error : exn := AxiosError "timeout of 30000ms exceeded" None.

(** ** [parsePrice] (lines 68-80) *)

Definition is_price_char (c : ascii) : bool :=
  is_digit c || Ascii.eqb c "." || Ascii.eqb c ",".

(** [.replace(/[^0-9.,]/g, "")] *)
Fixpoint keep_price_chars (s : string) : string :=
  match s with
  | EmptyString => EmptyString
  | String c t =>
      if is_price_char c then String c (keep_price_chars t) else keep_price_chars t
  end.

(** [.replace(/,(\d{3})/g, "$1")]: after a match the search goes on behind
    the three digits. *)
Fixpoint remove_thousand_separators (s : string) : string :=
  match s with
  | EmptyString => EmptyString
  | String c t =>
      match t with
      | String d1 (String d2 (String d3 t')) =>
          if Ascii.eqb c "," && is_digit d1 && is_digit d2 && is_digit d3
          then String d1 (String d2 (String d3 (remove_thousand_separators t')))
          else String c (remove_thousand_separators t)
      | _ => String c (remove_thousand_separators t)
      end
  end.

(** [.replace(",", ".")]: the first comma only. *)
Fixpoint decimal_comma (s : string) : string :=
  match s with
  | EmptyString => EmptyString
  | String c t => if Ascii.eqb c "," then String "." t else String c (decimal_comma t)
  end.

Definition cleanPrice (text : string) : string :=
  decimal_comma (remove_thousand_separators (keep_price_chars text)).

(** [x || 0] on a number. *)
Definition or_zero (x : float) : float := if truthy (VNum x) then x else 0%float.

Definition parsePrice (numberToString : float -> string) (parseFloat : string -> float)
    (priceString : value) : result float :=
  if negb (truthy priceString) then Ok 0%float
  else
    text ← ToString numberToString priceString;
    mret (or_zero (parseFloat (cleanPrice text))).

Fixpoint all_price_chars (s : string) : bool :=
  match s with
  | EmptyString => true
  | String c t => is_price_char c && all_price_chars t
  end.

(** Groups of digits, each behind a comma: [",g1,g2..."]. *)
Fixpoint comma_groups (groups : list string) : string :=
  match groups with
  | [] => EmptyString
  | g :: rest => "," +:+ g +:+ comma_groups rest
  end.

Fixpoint concat_groups (groups : list string) : string :=
  match groups with
  | [] => EmptyString
  | g :: rest => g +:+ concat_groups rest
  end.

Definition three_digits (g : string) : Prop :=
  String.length g = 3 /\ all_digits g = true.

(** [parseFloat] on the texts of the examples: the entries of the table, and
    NaN on a text without a leading number. *)
Definition parseFloat_table (s : string) : float :=
  if String.eqb s "15.50" then 15.5%float
  else if String.eqb s "1234.50" then 1234.5%float
  else nan.

(** ** The history page: filter and selection of the listed products *)

(** The fields of an imported product that the filter and the selection
    read. *)
Record ImportedProduct : Type := {
  ip_id : string;
  ip_title : string;
  ip_ebayItemId : option string;
  ip_status : string;
}.

(** [product.title.toLowerCase().includes(searchTerm.toLowerCase())
     || product.ebayItemId?.toLowerCase().includes(searchTerm.toLowerCase())] *)
Definition matchesSearch (searchTerm : string) (product : ImportedProduct) : bool :=
  includes (toLowerCase (ip_title product)) (toLowerCase searchTerm)
  || match ip_ebayItemId product with
     | Some ebayItemId => includes (toLowerCase ebayItemId) (toLowerCase searchTerm)
     | None => false
     end.

Definition matchesStatus (filterStatus : string) (product : ImportedProduct) : bool :=
  String.eqb filterStatus "ALL" || String.eqb (ip_status product) filterStatus.

(** [products.filter(...)], before the sort. *)
Definition filteredProducts (searchTerm filterStatus : string)
    (products : list ImportedProduct) : list ImportedProduct :=
  List.filter
    (fun product => matchesSearch searchTerm product && matchesStatus filterStatus product)
    products.

Definition activeFilters (searchTerm filterStatus : string) : nat :=
  (if String.eqb searchTerm "" then 0 else 1)
  + (if String.eqb filterStatus "ALL" then 0 else 1).

(** The state [(searchTerm, filterStatus)] that [clearAllFilters] sets. *)
Definition clearAllFilters : string * string := ("", "ALL").

(** The update of [selectedProducts] by [toggleSelectProduct(productId)]. *)
Definition toggleSelectProduct (productId : string) (prev : list string) : list string :=
  if existsb (String.eqb productId) prev
  then List.filter (fun id => negb (String.eqb id productId)) prev
  else prev ++ [productId].

(** The value [selectAll] sets [selectedProducts] to; [listed] is
    [filteredProducts] as displayed. *)
Definition selectAll (selectedProducts : list string) (listed : list ImportedProduct)
  : list string :=
  if (length selectedProducts =? length listed)%nat
  then []
  else map ip_id listed.

(** The [checked] state of the "Select All" box. *)
Definition selectAllChecked (selectedProducts : list string)
    (listed : list ImportedProduct) : bool :=
  (length selectedProducts =? length listed)%nat && (0 <? length listed)%nat.

(** ** The settings page: the submitted form and its decoding *)

(** The state of the form: [pricingMode], [pricingValue],
    [defaultCollectionId], [autoPublish], [termsAccepted]. *)
Record SettingsState : Type := {
  st_pricingMode : string;
  st_pricingValue : float;
  st_defaultCollectionId : string;
  st_autoPublish : bool;
  st_termsAccepted : bool;
}.

(** A [FormData] of string entries, in the order they were appended. *)
Definition FormData : Type := list (string * string).

(** [formData.get(name)]: the first entry of that name, [null] without one. *)
Fixpoint formData_get (name : string) (formData : FormData) : option string :=
  match formData with
  | [] => None
  | (k, v) :: rest => if String.eqb k name then Some v else formData_get name rest
  end.

(** [b.toString()] on a boolean. *)
Definition booleanToString (b : bool) : string := if b then "true" else "false".

(** The form that [handleSubmit] submits. *)
Definition handleSubmit (numberToString : float -> string) (st : SettingsState)
  : FormData :=
  [ ("pricingMode", st_pricingMode st);
    ("pricingValue", numberToString (st_pricingValue st));
    ("defaultCollectionId", st_defaultCollectionId st);
    ("autoPublish", booleanToString (st_autoPublish st));
    ("termsAccepted", booleanToString (st_termsAccepted st)) ].

(** The object [data] that the action saves; [Date] is the type of dates. *)
Record SettingsData (Date : Type) : Type := {
  pricingMode : string;
  pricingValue : float;
  defaultCollectionId : option string;
  autoPublish : bool;
  termsAccepted : bool;
  termsAcceptedAt : option Date;
}.
Arguments pricingMode {Date} _.
Arguments pricingValue {Date} _.
Arguments defaultCollectionId {Date} _.
Arguments autoPublish {Date} _.
Arguments termsAccepted {Date} _.
Arguments termsAcceptedAt {Date} _.

(** [(formData.get(name) as string) || fallback] *)
Definition get_or (name fallback : string) (formData : FormData) : string :=
  match formData_get name formData with
  | Some v => if String.eqb v "" then fallback else v
  | None => fallback
  end.

(** [formData.get(name) === "true"] *)
Definition is_true (name : string) (formData : FormData) : bool :=
  match formData_get name formData with
  | Some v => String.eqb v "true"
  | None => false
  end.

(** The [data] of the settings action; [now] is [new Date()]. *)
Definition actionData {Date : Type} (parseFloat : string -> float) (now : Date)
    (formData : FormData) : SettingsData Date :=
  {| pricingMode := get_or "pricingMode" "MULTIPLIER" formData;
     pricingValue := parseFloat (get_or "pricingValue" "1.0" formData);
     defaultCollectionId :=
       match formData_get "defaultCollectionId" formData with
       | Some v => if String.eqb v "" then None else Some v
       | None => None
       end;
     autoPublish := is_true "autoPublish" formData;
     termsAccepted := is_true "termsAccepted" formData;
     termsAcceptedAt := if is_true "termsAccepted" formData then Some now else None |}.

(** ** The [catch] block *)

(** [error.response?.data?.message || error.message] *)
Definition axios_message (message : string) (response_data : option value) : value :=
  or_else (get_opt (default VUndefined response_data) "message") (VStr message).

(** The rejection of a request that the service answered with status 429 and
    a JSON body whose message is an object with a property [toString]. *)
Definition unprintable_error : exn :=
  AxiosError "Request failed with status code 429"
    (Some (VObj [("message", VObj [("toString", VNum 1)])])).

(** * Proofs *)

(** ** The exception monad *)

Lemma bind_Ok {A B : Type} (m : result A) (f : A -> result B) (b : B) :
  m ≫= f = Ok b <-> exists a, m = Ok a /\ f a = Ok b.
Proof.
  destruct m as [a|e]; simpl; split.
  - intros H. exists a. split; [reflexivity | exact H].
  - intros (a' & Ha & Hf). injection Ha as ->. exact Hf.
  - discriminate.
  - intros (a' & Ha & _). discriminate.
Qed.

Tactic Notation "bind_inv" hyp(H) "as" ident(a) ident(Ha) :=
  apply bind_Ok in H; destruct H as (a & Ha & H).

Lemma fold_leftM_inv {A B : Type} (I : A -> Prop) (f : A -> B -> result A)
    (l : list B) (a r : A) :
  I a ->
  (forall a b a', I a -> f a b = Ok a' -> I a') ->
  fold_leftM f l a = Ok r ->
  I r.
Proof.
  intros Ha Hstep. revert a Ha.
  induction l as [|b l IH]; intros a Ha H; simpl in H.
  - injection H as <-. exact Ha.
  - bind_inv H as a' Ha'. eapply IH; [|exact H]. eapply Hstep; eassumption.
Qed.

Lemma mapM_trim_strings (raw : list string) :
  mapM (fun v => s ← as_string v "v" "trim"; mret (trim s)) (map VStr raw)
  = Ok (map trim raw).
Proof.
  induction raw as [|s raw IH]; [reflexivity|].
  cbn [map mapM]. cbn. cbn in IH. rewrite IH. reflexivity.
Qed.

Lemma fold_leftM_inv_elem {A B : Type} (I : A -> Prop) (f : A -> B -> result A)
    (l : list B) (a r : A) :
  I a ->
  (forall a b a', b ∈ l -> I a -> f a b = Ok a' -> I a') ->
  fold_leftM f l a = Ok r ->
  I r.
Proof.
  intros Ha Hstep. revert a Ha.
  induction l as [|b l IH]; intros a Ha H; simpl in H.
  - injection H as <-. exact Ha.
  - bind_inv H as a' Ha'. eapply IH; [| |exact H].
    + intros a0 b0 a0' Hb0. apply Hstep. right. exact Hb0.
    + eapply Hstep; [left|exact Ha|exact Ha'].
Qed.

Lemma mapM_trim_inv (raw : list value) (trimmed : list string) :
  mapM (fun v => s ← as_string v "v" "trim"; mret (trim s)) raw = Ok trimmed ->
  exists strings, raw = map VStr strings /\ trimmed = map trim strings.
Proof.
  revert trimmed. induction raw as [|v raw IH]; intros trimmed H.
  - injection H as <-. exists []. split; reflexivity.
  - cbn [mapM] in H. bind_inv H as t Ht. bind_inv Ht as s Hs. bind_inv H as ts Hts.
    injection Ht as <-. injection H as <-.
    destruct (IH _ Hts) as (strings & -> & ->).
    destruct v; try discriminate. injection Hs as ->.
    exists (s :: strings). split; reflexivity.
Qed.

(** ** The variant expander *)

Lemma cardinalities_cons (o : ProductOption) (opts : list ProductOption) :
  cardinalities (o :: opts) = length (values o) * cardinalities opts.
Proof. reflexivity. Qed.

Lemma generateCombinations_length (remaining : list ProductOption) :
  forall currentOptions variants,
    length (generateCombinations remaining currentOptions variants)
    = length variants + cardinalities remaining.
Proof.
  induction remaining as [|o rest IH]; intros cur acc.
  - cbn. rewrite length_app. reflexivity.
  - cbn [generateCombinations]. rewrite cardinalities_cons.
    generalize (values o) as vals. intros vals. revert acc.
    induction vals as [|v vals IHv]; intros acc; cbn [fold_left length].
    + lia.
    + rewrite IHv, IH. lia.
Qed.

Lemma generateCombinations_pushed (remaining : list ProductOption) :
  forall currentOptions variants v,
    v ∈ generateCombinations remaining currentOptions variants ->
    v ∈ variants \/ pushed (dom currentOptions ∪ option_names remaining) v.
Proof.
  induction remaining as [|o rest IH]; intros cur acc v Hv.
  - cbn in Hv. apply elem_of_app in Hv as [Hv|Hv]; [left; exact Hv|right].
    apply list_elem_of_singleton in Hv as ->. unfold pushed, option_names. cbn.
    rewrite (right_id_L ∅ (∪)). repeat split.
  - cbn [generateCombinations] in Hv.
    assert (Hnames : forall val : string,
               dom (<[name o := val]> cur) ∪ option_names rest
               = dom cur ∪ option_names (o :: rest)).
    { intros val. unfold option_names. cbn [map list_to_set].
      rewrite dom_insert_L, (comm_L (∪) {[name o]} (dom cur)), (assoc_L (∪)).
      reflexivity. }
    revert acc Hv. generalize (values o) as vals.
    induction vals as [|val vals IHv]; intros acc Hv; cbn [fold_left] in Hv.
    + left. exact Hv.
    + apply IHv in Hv as [Hv|Hv]; [|right; exact Hv].
      apply IH in Hv as [Hv|Hv]; [left; exact Hv|right].
      rewrite <- (Hnames val). exact Hv.
Qed.

Lemma parseEntry_inv acc entry acc' :
  parse_inv acc -> parseEntry acc entry = Ok acc' -> parse_inv acc'.
Proof.
  intros [Heq Hall] H. destruct acc as [po aov], entry as [n optionData].
  cbn in Heq. subst aov. cbn [fst] in Hall. unfold parseEntry in H.
  destruct (optionValues optionData) as [raw|]; [|injection H as <-; split; auto].
  bind_inv H as trimmed Ht.
  apply mapM_trim_inv in Ht as (strings & -> & ->).
  fold (availableValues strings) in H.
  destruct (0 <? length (availableValues strings))%nat eqn:Hlen;
    injection H as <-; [|split; auto].
  split; [reflexivity|]. cbn [fst]. apply Forall_app. split; [exact Hall|].
  constructor; [|constructor]. split; cbn.
  - intros Hnil. rewrite Hnil in Hlen. discriminate.
  - exists strings. reflexivity.
Qed.

Lemma parseOption_inv acc optionObj acc' :
  parse_inv acc -> parseOption acc optionObj = Ok acc' -> parse_inv acc'.
Proof.
  intros Hacc H. unfold parseOption in H. bind_inv H as es Hes.
  eapply fold_leftM_inv; [exact Hacc|apply parseEntry_inv|exact H].
Qed.

(** The shape of every result of [formatEbayVariants]. *)
Lemma formatEbayVariants_inv (input : value) (r : VariantsData) :
  formatEbayVariants input = Ok r ->
  (vd_options r = [] /\ vd_variants r = [])
  \/ (vd_options r <> [] /\ Forall parsed (vd_options r)
      /\ vd_variants r = generateCombinations (vd_options r) ∅ []).
Proof.
  unfold formatEbayVariants. intros H.
  destruct (negb (truthy input) || length_is_zero input).
  { injection H as <-. left. split; reflexivity. }
  bind_inv H as elems He. bind_inv H as acc Hacc.
  apply (fold_leftM_inv parse_inv) in Hacc;
    [|split; [reflexivity|constructor]|apply parseOption_inv].
  destruct acc as [po aov]. destruct Hacc as [Heq Hall]. cbn in Heq, Hall. subst aov.
  destruct (length po =? 0)%nat eqn:Hlen; injection H as <-; cbn.
  - left. split; reflexivity.
  - right. split; [|split; [exact Hall|reflexivity]].
    intros ->. discriminate.
Qed.

Lemma parseOption_descriptor acc (d : string * list string) :
  parseOption acc (descriptor d)
  = Ok (fst acc ++ surviving [d], snd acc ++ surviving [d]).
Proof.
  destruct acc as [po aov], d as [n raw].
  unfold parseOption, descriptor. cbn [entries fst snd]. cbn [mbind result_bind fold_leftM].
  unfold parseEntry. cbn [optionValues lookup_prop String.eqb Ascii.eqb Bool.eqb].
  rewrite mapM_trim_strings. cbn [mbind result_bind].
  fold (availableValues raw). unfold surviving. cbn [map List.filter fst snd values].
  destruct (0 <? length (availableValues raw))%nat; cbn; rewrite ?app_nil_r; reflexivity.
Qed.

Lemma surviving_cons d ds : surviving (d :: ds) = surviving [d] ++ surviving ds.
Proof.
  unfold surviving. cbn [map List.filter].
  destruct (0 <? _)%nat; reflexivity.
Qed.

Lemma fold_parseOption_descriptors (ds : list (string * list string)) :
  forall acc,
    fold_leftM parseOption (map descriptor ds) acc
    = Ok (fst acc ++ surviving ds, snd acc ++ surviving ds).
Proof.
  induction ds as [|d ds IH]; intros acc.
  - cbn. rewrite !app_nil_r. destruct acc; reflexivity.
  - cbn [map fold_leftM]. rewrite parseOption_descriptor. cbn [mbind result_bind].
    rewrite IH. cbn [fst snd]. rewrite (surviving_cons d ds), !app_assoc. reflexivity.
Qed.

(** On descriptors of the documented format [formatEbayVariants] returns,
    and the options it returns are the surviving ones. *)
Lemma formatEbayVariants_descriptors (ds : list (string * list string)) :
  formatEbayVariants (VArr (map descriptor ds))
  = Ok (match surviving ds with
        | [] => {| vd_options := []; vd_variants := [] |}
        | opts => {| vd_options := opts;
                     vd_variants := generateCombinations opts ∅ [] |}
        end).
Proof.
  unfold formatEbayVariants. destruct ds as [|d ds]; [reflexivity|].
  cbn [map truthy length_is_zero negb orb as_array mbind result_bind].
  change (descriptor d :: map descriptor ds) with (map descriptor (d :: ds)).
  rewrite fold_parseOption_descriptors. cbn [fst snd app].
  destruct (surviving (d :: ds)); reflexivity.
Qed.

(** C1. Whenever the variant expander returns, the number of variants is the
    product of the cardinalities of the value lists of the options it
    returns, and both lists are empty when no option is returned.  On
    descriptors of the documented format it does return, and the options it
    returns are the descriptors that keep a value after trimming and
    out-of-stock filtering, so the lists are empty when the input is empty or
    nothing survives.  On the Color/Size example it returns 2 options and the
    4 variants Black/S, Black/M, Pink/S, Pink/M. *)
Theorem formatEbayVariants_cartesian :
  (forall input r,
      formatEbayVariants input = Ok r ->
      match vd_options r with
      | [] => vd_variants r = []
      | opts => length (vd_variants r) = cardinalities opts
      end)
  /\ (forall ds, exists vs,
         formatEbayVariants (VArr (map descriptor ds))
         = Ok {| vd_options := surviving ds; vd_variants := vs |}
         /\ (surviving ds = [] -> vs = [])
         /\ (surviving ds <> [] -> length vs = cardinalities (surviving ds)))
  /\ formatEbayVariants (VArr []) = Ok {| vd_options := []; vd_variants := [] |}
  /\ (exists r,
         formatEbayVariants color_size_options = Ok r
         /\ vd_options r = [ {| name := "Color"; values := ["Black"; "Pink"] |};
                             {| name := "Size"; values := ["S"; "M"] |} ]
         /\ length (vd_variants r) = 2 * 2
         /\ map (fun v => (v_options v !! "Color", v_options v !! "Size")) (vd_variants r)
            = [ (Some "Black", Some "S"); (Some "Black", Some "M");
                (Some "Pink", Some "S"); (Some "Pink", Some "M") ]).
Proof.
  assert (Hcount : forall input r,
             formatEbayVariants input = Ok r ->
             match vd_options r with
             | [] => vd_variants r = []
             | opts => length (vd_variants r) = cardinalities opts
             end).
  { intros input r H.
    destruct (formatEbayVariants_inv _ _ H) as [[-> ->]|(Hne & _ & ->)]; [reflexivity|].
    destruct (vd_options r) as [|o opts] eqn:E; [contradiction|].
    rewrite generateCombinations_length. reflexivity. }
  split; [exact Hcount|]. split; [|split; [reflexivity|]].
  - intros ds. pose proof (formatEbayVariants_descriptors ds) as H.
    destruct (surviving ds) as [|o opts] eqn:E.
    + exists []. split; [exact H|]. split; [reflexivity|contradiction].
    + exists (generateCombinations (o :: opts) ∅ []). split; [exact H|].
      split; [discriminate|]. intros _. apply (Hcount _ _ H).
  - eexists. split; [vm_compute; reflexivity|].
    split; [reflexivity|]. split; vm_compute; reflexivity.
Qed.

Lemma formatEbayVariants_cartesian_witness :
  length (generateCombinations (surviving red_blue_sml) ∅ []) = 2 * 3.
Proof.
  apply (proj1 formatEbayVariants_cartesian
           (VArr (map descriptor red_blue_sml))
           {| vd_options := surviving red_blue_sml;
              vd_variants := generateCombinations (surviving red_blue_sml) ∅ [] |}).
  vm_compute. reflexivity.
Defined.

Lemma formatEbayVariants_pushed (input : value) (r : VariantsData) :
  formatEbayVariants input = Ok r ->
  forall v, v ∈ vd_variants r -> pushed (option_names (vd_options r)) v.
Proof.
  intros H v Hv.
  destruct (formatEbayVariants_inv _ _ H) as [[_ Hnil]|(_ & _ & Hgen)].
  - rewrite Hnil in Hv. inversion Hv.
  - rewrite Hgen in Hv. apply generateCombinations_pushed in Hv as [Hv|Hv].
    + inversion Hv.
    + rewrite dom_empty_L, (left_id_L ∅ (∪)) in Hv. exact Hv.
Qed.

Lemma named_once (k : string) (opts : list ProductOption) :
  NoDup (map name opts) -> k ∈ map name opts -> length (named k opts) = 1.
Proof.
  assert (Hnone : forall l, k ∉ map name l -> named k l = []).
  { induction l as [|o l IH]; [reflexivity|]. cbn. intros Hk.
    apply not_elem_of_cons in Hk as [Hne Hk].
    destruct (String.eqb_spec (name o) k) as [Heq|_]; [congruence|]. auto. }
  induction opts as [|o opts IH]; cbn [map named List.filter]; intros Hnd Hk.
  - inversion Hk.
  - apply NoDup_cons in Hnd as [Hfresh Hnd].
    destruct (String.eqb_spec (name o) k) as [Heq|Hne].
    + subst k. cbn. fold (named (name o) opts). rewrite (Hnone _ Hfresh). reflexivity.
    + apply elem_of_cons in Hk as [->|Hk]; [contradiction|]. auto.
Qed.

(** C8, as stated, fails: two descriptors named Color both survive, the one
    variant has the single key Color, and that key is the name of two
    surviving options. *)
Lemma variant_keys_counterexample :
  exists r,
    formatEbayVariants color_twice = Ok r
    /\ vd_options r = [ {| name := "Color"; values := ["Red"] |};
                        {| name := "Color"; values := ["Blue"] |} ]
    /\ map (fun v => map_to_list (v_options v)) (vd_variants r) = [ [("Color", "Blue")] ]
    /\ length (named "Color" (vd_options r)) = 2.
Proof.
  eexists. split; [vm_compute; reflexivity|].
  split; [reflexivity|]. split; vm_compute; reflexivity.
Qed.

(** C8, amended. Whenever the variant expander returns, the set of keys of
    every variant's options map is the set of the surviving options' names;
    and when these names are pairwise distinct, the map has as many entries
    as there are surviving options and each of its keys is the name of
    exactly one of them. *)
Theorem variant_keys (input : value) (r : VariantsData) (v : ProductVariant) :
  formatEbayVariants input = Ok r ->
  v ∈ vd_variants r ->
  dom (v_options v) = option_names (vd_options r)
  /\ (NoDup (map name (vd_options r)) ->
      size (v_options v) = length (vd_options r)
      /\ forall k, k ∈ dom (v_options v) -> length (named k (vd_options r)) = 1).
Proof.
  intros H Hv. destruct (formatEbayVariants_pushed _ _ H v Hv) as (_ & _ & _ & Hdom).
  split; [exact Hdom|]. intros Hnd. split.
  - rewrite <- size_dom, Hdom. unfold option_names.
    rewrite size_list_to_set by exact Hnd. apply length_map.
  - intros k Hk. rewrite Hdom in Hk. unfold option_names in Hk.
    apply elem_of_list_to_set in Hk. apply named_once; assumption.
Qed.

Lemma variant_keys_witness :
  Forall (fun v => dom (v_options v) = {[ "Color"; "Size" ]} /\ size (v_options v) = 2)
    (generateCombinations (surviving color_size) ∅ []).
Proof.
  apply Forall_forall. intros v Hv.
  destruct (variant_keys (VArr (map descriptor color_size))
              {| vd_options := surviving color_size;
                 vd_variants := generateCombinations (surviving color_size) ∅ [] |}
              v) as [Hdom Hsize].
  - vm_compute. reflexivity.
  - exact Hv.
  - split.
    + rewrite Hdom. vm_compute. reflexivity.
    + apply Hsize. apply (bool_decide_unpack _). vm_compute. reflexivity.
Defined.

(** ** Option values *)

Lemma trimStart_head (s : string) :
  trimStart s = "" \/ exists c t, trimStart s = String c t /\ is_white c = false.
Proof.
  induction s as [|c t IH]; [left; reflexivity|]. cbn.
  destruct (is_white c) eqn:E; [exact IH|]. right. exists c, t. auto.
Qed.

Lemma trimEnd_head (c : ascii) (t : string) :
  is_white c = false -> trimEnd (String c t) = String c (trimEnd t).
Proof. intros E. cbn. rewrite E. destruct (trimEnd t); reflexivity. Qed.

Lemma trimEnd_keeps (c c' : ascii) (t t' : string) :
  trimEnd t = String c' t' -> trimEnd (String c t) = String c (String c' t').
Proof. intros E. cbn. rewrite E. reflexivity. Qed.

Lemma trimEnd_idempotent (s : string) : trimEnd (trimEnd s) = trimEnd s.
Proof.
  induction s as [|c t IH]; [reflexivity|]. cbn.
  destruct (trimEnd t) as [|c' t'] eqn:E.
  - destruct (is_white c) eqn:W; [reflexivity|]. cbn. rewrite W. reflexivity.
  - apply trimEnd_keeps, IH.
Qed.

Lemma trim_idempotent (s : string) : trim (trim s) = trim s.
Proof.
  unfold trim. destruct (trimStart_head s) as [->|(c & t & -> & W)]; [reflexivity|].
  rewrite (trimEnd_head c t W). cbn [trimStart]. rewrite W.
  rewrite <- (trimEnd_head c t W). apply trimEnd_idempotent.
Qed.

Lemma availableValues_elem (raw : list string) (v : string) :
  v ∈ availableValues raw ->
  out_of_stock v = false /\ trim v = v /\ exists x, x ∈ raw /\ v = trim x.
Proof.
  unfold availableValues. intros Hv. apply list_elem_of_In, filter_In in Hv as [Hin Hstock].
  apply in_map_iff in Hin as (x & <- & Hx).
  split; [destruct (out_of_stock (trim x)); [discriminate|reflexivity]|].
  split; [apply trim_idempotent|]. exists x. split; [apply list_elem_of_In, Hx|reflexivity].
Qed.

(** C9, as stated, fails: the values are neither deduplicated nor freed of the
    empty string. *)
Lemma option_values_counterexample :
  exists vs,
    formatEbayVariants red_twice_and_blank
    = Ok {| vd_options := [ {| name := "Color"; values := ["Red"; "Red"; ""] |} ];
            vd_variants := vs |}
    /\ "" ∈ ["Red"; "Red"; ""]
    /\ ["Red"; "Red"; ""] !! 0 = ["Red"; "Red"; ""] !! 1.
Proof.
  eexists. split; [vm_compute; reflexivity|].
  split; [|reflexivity]. apply list_elem_of_In. cbn. auto.
Qed.

Lemma parseEntry_from (elems : list value) (optionObj : value)
    (es : list (string * value)) acc entry acc' :
  optionObj ∈ elems ->
  entries optionObj = Ok es ->
  entry ∈ es ->
  Forall (parsed_from (VArr elems)) (fst acc) ->
  parseEntry acc entry = Ok acc' ->
  Forall (parsed_from (VArr elems)) (fst acc').
Proof.
  intros Helem Hes Hentry Hall H. destruct acc as [po aov], entry as [n optionData].
  cbn [fst] in Hall. unfold parseEntry in H.
  destruct (optionValues optionData) as [raw|] eqn:Hraw; [|injection H as <-; exact Hall].
  bind_inv H as trimmed Ht.
  apply mapM_trim_inv in Ht as (strings & -> & ->).
  fold (availableValues strings) in H.
  destruct (0 <? length (availableValues strings))%nat;
    injection H as <-; [|exact Hall].
  cbn [fst]. apply Forall_app. split; [exact Hall|].
  constructor; [|constructor]. exists strings. split; [|reflexivity].
  exists elems, optionObj, es, optionData. cbn [name]. auto.
Qed.

Lemma parseOption_from (elems : list value) acc optionObj acc' :
  optionObj ∈ elems ->
  Forall (parsed_from (VArr elems)) (fst acc) ->
  parseOption acc optionObj = Ok acc' ->
  Forall (parsed_from (VArr elems)) (fst acc').
Proof.
  intros Helem Hall H. unfold parseOption in H. bind_inv H as es Hes.
  apply (fold_leftM_inv_elem (fun a => Forall (parsed_from (VArr elems)) (fst a))
           parseEntry es acc acc' Hall); [|exact H].
  intros a entry a' Hentry Ha Hstep.
  exact (parseEntry_from elems optionObj es a entry a' Helem Hes Hentry Ha Hstep).
Qed.

(** Every returned option comes from an entry of the input. *)
Lemma formatEbayVariants_from (input : value) (r : VariantsData) :
  formatEbayVariants input = Ok r -> Forall (parsed_from input) (vd_options r).
Proof.
  unfold formatEbayVariants. intros H.
  destruct (negb (truthy input) || length_is_zero input).
  { injection H as <-. constructor. }
  bind_inv H as elems He. bind_inv H as acc Hacc.
  destruct input; try discriminate He. injection He as ->.
  apply (fold_leftM_inv_elem (fun a => Forall (parsed_from (VArr elems)) (fst a)))
    in Hacc; [|constructor|].
  - destruct acc as [po aov]. cbn [fst] in Hacc.
    destruct (length aov =? 0)%nat; injection H as <-; [constructor|exact Hacc].
  - intros a optionObj a' Helem Ha Hstep.
    exact (parseOption_from elems a optionObj a' Helem Ha Hstep).
Qed.

(** C9, amended. Every option the variant expander returns has a non-empty
    values list, which is the list of the raw values of an entry of its name
    in the input, each trimmed, in their order, without those whose
    lower-cased form contains "out of stock": so every value is trimmed and
    none contains "out of stock".  Duplicates and the empty string are
    kept. *)
Theorem option_values (input : value) (r : VariantsData) (o : ProductOption) :
  formatEbayVariants input = Ok r ->
  o ∈ vd_options r ->
  values o <> []
  /\ (exists raw,
        raw_values_of input (name o) raw /\ values o = availableValues raw)
  /\ forall v, v ∈ values o ->
       trim v = v /\ includes (toLowerCase v) "out of stock" = false.
Proof.
  intros H Ho.
  pose proof (formatEbayVariants_from _ _ H) as Hfrom.
  rewrite Forall_forall in Hfrom. destruct (Hfrom o Ho) as (raw & Hof & Hraw).
  destruct (formatEbayVariants_inv _ _ H) as [[Hnil _]|(_ & Hall & _)].
  - rewrite Hnil in Ho. inversion Ho.
  - rewrite Forall_forall in Hall. destruct (Hall o Ho) as [Hne _].
    split; [exact Hne|]. split; [exists raw; split; assumption|].
    intros v Hv. rewrite Hraw in Hv.
    apply availableValues_elem in Hv as (Hstock & Htrim & _). auto.
Qed.

Lemma option_values_witness :
  values {| name := "Color"; values := ["Black"; "Pink"] |} <> []
  /\ (exists raw,
        raw_values_of color_size_options "Color" raw
        /\ ["Black"; "Pink"] = availableValues raw)
  /\ forall v, v ∈ ["Black"; "Pink"] ->
       trim v = v /\ includes (toLowerCase v) "out of stock" = false.
Proof.
  apply (option_values color_size_options
           {| vd_options := [ {| name := "Color"; values := ["Black"; "Pink"] |};
                              {| name := "Size"; values := ["S"; "M"] |} ];
              vd_variants := generateCombinations
                               [ {| name := "Color"; values := ["Black"; "Pink"] |};
                                 {| name := "Size"; values := ["S"; "M"] |} ] ∅ [] |}).
  - vm_compute. reflexivity.
  - apply list_elem_of_here.
Defined.

(** ** Strings *)

Arguments String.append !s1 s2 : simpl nomatch.

Lemma app_assoc_s (a b c : string) : (a +:+ b) +:+ c = a +:+ (b +:+ c).
Proof. induction a as [|x a IH]; cbn; [reflexivity|]. rewrite IH. reflexivity. Qed.

Lemma length_app_s (a b : string) :
  String.length (a +:+ b) = String.length a + String.length b.
Proof. induction a as [|x a IH]; cbn; [reflexivity|]. rewrite IH. reflexivity. Qed.

Lemma prefix_app (p r : string) : String.prefix p (p +:+ r) = true.
Proof.
  induction p as [|x p IH]; cbn; [destruct r; reflexivity|].
  destruct (ascii_dec x x); [exact IH|contradiction].
Qed.

Lemma includes_app (pre p post : string) : includes (pre +:+ p +:+ post) p = true.
Proof.
  induction pre as [|x pre IH].
  - cbn [append]. destruct (p +:+ post) eqn:E; cbn [includes];
      rewrite <- E, prefix_app; reflexivity.
  - cbn [append includes].
    rewrite IH. apply orb_true_r.
Qed.

Lemma strip_prefix_spec (p s r : string) :
  strip_prefix p s = Some r <-> s = p +:+ r.
Proof.
  revert s. induction p as [|a p IH]; intros s; cbn.
  - split; [intros [= ->]; reflexivity|intros ->; reflexivity].
  - destruct s as [|b s]; [split; discriminate|].
    destruct (Ascii.eqb_spec a b) as [->|Hne].
    + rewrite IH. split; [intros ->; reflexivity|intros [= ->]; reflexivity].
    + split; [discriminate|intros [= Hab _]; congruence].
Qed.

Lemma strip_prefix_ci_sound (p s r : string) :
  strip_prefix_ci p s = Some r -> exists m, s = m +:+ r /\ toLowerCase m = p.
Proof.
  revert s. induction p as [|a p IH]; intros s; cbn.
  - intros [= ->]. exists "". split; reflexivity.
  - destruct s as [|b s]; [discriminate|].
    destruct (Ascii.eqb_spec a (lower b)) as [->|_]; [|discriminate].
    intros H. destruct (IH _ H) as (m & -> & <-).
    exists (String b m). split; reflexivity.
Qed.

Lemma strip_prefix_ci_complete (m r : string) :
  strip_prefix_ci (toLowerCase m) (m +:+ r) = Some r.
Proof.
  induction m as [|b m IH]; cbn; [reflexivity|].
  rewrite Ascii.eqb_refl. exact IH.
Qed.

Lemma span_digits_sound (s ds rest : string) :
  span_digits s = (ds, rest) -> s = ds +:+ rest /\ all_digits ds = true.
Proof.
  revert ds rest. induction s as [|c s IH]; intros ds rest; cbn.
  - intros [= <- <-]. split; reflexivity.
  - destruct (is_digit c) eqn:D.
    + destruct (span_digits s) as [ds' rest']. intros [= <- <-].
      destruct (IH _ _ eq_refl) as [-> Hds]. split; [reflexivity|].
      cbn. rewrite D. exact Hds.
    + intros [= <- <-]. split; reflexivity.
Qed.

Lemma span_digits_complete (ds : string) (c : ascii) (rest : string) :
  all_digits ds = true -> is_digit c = false ->
  span_digits (ds +:+ String c rest) = (ds, String c rest).
Proof.
  intros Hds Hc. induction ds as [|d ds IH]; cbn.
  - rewrite Hc. reflexivity.
  - cbn in Hds. apply andb_true_iff in Hds as [Hd Hds].
    rewrite Hd, (IH Hds). reflexivity.
Qed.

Lemma span_digits_head (d : ascii) (post : string) :
  is_digit d = true ->
  exists ds rest, span_digits (String d post) = (String d ds, rest).
Proof.
  intros Hd. cbn. rewrite Hd. destruct (span_digits post) as [ds rest]. eauto.
Qed.

Lemma first_match_Some {A : Type} (at_start : string -> option A) (s : string) (a : A) :
  first_match at_start s = Some a ->
  exists pre t, s = pre +:+ t /\ at_start t = Some a.
Proof.
  induction s as [|c s IH]; cbn.
  - destruct (at_start "") eqn:E; [|discriminate].
    intros [= ->]. exists "", "". auto.
  - destruct (at_start (String c s)) eqn:E.
    + intros [= ->]. exists "", (String c s). auto.
    + intros H. destruct (IH H) as (pre & t & -> & Ht).
      exists (String c pre), t. auto.
Qed.

Lemma first_match_None {A : Type} (at_start : string -> option A) (s : string) :
  first_match at_start s = None ->
  forall pre t, s = pre +:+ t -> at_start t = None.
Proof.
  induction s as [|c s IH]; cbn.
  - destruct (at_start "") eqn:E; [discriminate|].
    intros _ pre t H. destruct pre, t; try discriminate. exact E.
  - destruct (at_start (String c s)) eqn:E; [discriminate|].
    intros H pre t Hs. destruct pre as [|x pre]; cbn in Hs.
    + subst t. exact E.
    + injection Hs as _ Hs. exact (IH H pre t Hs).
Qed.

Lemma replace_first_at (at_start : string -> option string)
    (replacement pre t rest : string) :
  at_start t = Some rest ->
  (forall p1 p2, pre = p1 +:+ p2 -> p2 <> "" -> at_start (p2 +:+ t) = None) ->
  replace_first at_start replacement (pre +:+ t) = pre +:+ replacement +:+ rest.
Proof.
  intros Ht. induction pre as [|c pre IH]; intros Hleft.
  - cbn [append]. destruct t; cbn; rewrite Ht; reflexivity.
  - assert (E : at_start (String c pre +:+ t) = None)
      by (apply (Hleft "" (String c pre) eq_refl); discriminate).
    cbn [append replace_first] in E |- *. rewrite E, IH; [reflexivity|].
    intros p1 p2 -> Hp2. apply (Hleft (String c p1) p2 eq_refl Hp2).
Qed.

Lemma replace_first_none (at_start : string -> option string) (replacement s : string) :
  (forall pre t, s = pre +:+ t -> at_start t = None) ->
  replace_first at_start replacement s = s.
Proof.
  induction s as [|c s IH]; intros Hnone; cbn.
  - rewrite (Hnone "" "" eq_refl). reflexivity.
  - rewrite (Hnone "" (String c s) eq_refl). rewrite IH; [reflexivity|].
    intros pre t ->. apply (Hnone (String c pre) t eq_refl).
Qed.

(** ** The item identifier *)

Lemma match_itm_sound (s id : string) :
  match_itm s = Some id ->
  exists m rest,
    s = m +:+ id +:+ rest /\ toLowerCase m = "/itm/" /\ id <> "" /\ all_digits id = true.
Proof.
  unfold match_itm. destruct (strip_prefix_ci "/itm/" s) as [t|] eqn:E; [|discriminate].
  destruct (strip_prefix_ci_sound _ _ _ E) as (m & -> & Hm).
  destruct (span_digits t) as [ds rest] eqn:S.
  destruct (span_digits_sound _ _ _ S) as [-> Hds].
  destruct ds as [|d ds]; [discriminate|]. intros [= <-].
  exists m, rest. repeat split; [exact Hm|discriminate|exact Hds].
Qed.

Lemma match_itm_complete (m : string) (d : ascii) (post : string) :
  toLowerCase m = "/itm/" -> is_digit d = true ->
  exists id, match_itm (m +:+ String d post) = Some id.
Proof.
  intros Hm Hd. unfold match_itm. rewrite <- Hm, strip_prefix_ci_complete.
  destruct (span_digits_head d post Hd) as (ds & rest & ->). eauto.
Qed.

Lemma extractItemId_sound (url id : string) :
  extractItemId url = Some id -> id <> "" /\ has_item_path url.
Proof.
  intros H. apply first_match_Some in H as (pre & t & -> & H).
  apply match_itm_sound in H as (m & rest & -> & Hm & Hne & Hds).
  split; [exact Hne|]. destruct id as [|d ds]; [contradiction|].
  exists pre, m, d, (ds +:+ rest). cbn in Hds. apply andb_true_iff in Hds as [Hd _].
  repeat split; assumption.
Qed.

Lemma extractItemId_None (url : string) :
  extractItemId url = None <-> ~ has_item_path url.
Proof.
  split.
  - intros H (pre & m & d & post & -> & Hm & Hd).
    pose proof (first_match_None _ _ H pre _ eq_refl) as Hnone.
    destruct (match_itm_complete m d post Hm Hd) as [id Hid]. congruence.
  - intros Hno. destruct (extractItemId url) as [id|] eqn:E; [|reflexivity].
    apply extractItemId_sound in E as [_ E]. contradiction.
Qed.

(** ** Images *)

Lemma match_thumbnail_spec (s rest : string) :
  match_thumbnail s = Some rest
  <-> exists ds, s = "/s-l" +:+ ds +:+ "." +:+ rest /\ ds <> "" /\ all_digits ds = true.
Proof.
  unfold match_thumbnail. split.
  - destruct (strip_prefix "/s-l" s) as [t|] eqn:E; [|discriminate].
    apply strip_prefix_spec in E as ->.
    destruct (span_digits t) as [ds r] eqn:S.
    destruct (span_digits_sound _ _ _ S) as [-> Hds].
    destruct ds as [|d ds]; [discriminate|]. destruct r as [|c r]; [discriminate|].
    destruct (Ascii.eqb_spec c ".") as [->|_]; [|discriminate]. intros [= <-].
    exists (String d ds). repeat split; [discriminate|exact Hds].
  - intros (ds & -> & Hne & Hds).
    rewrite (proj2 (strip_prefix_spec "/s-l" _ _) eq_refl).
    change ("." +:+ rest) with (String "." rest).
    rewrite (span_digits_complete ds "." rest Hds eq_refl).
    destruct ds; [contradiction|reflexivity].
Qed.

Lemma highResolution_first (s pre ds post : string) :
  first_thumbnail_at s pre ds post ->
  includes s ".jpg" = true ->
  highResolution s = pre +:+ "/s-l1600." +:+ post.
Proof.
  intros [(Hs & Hne & Hds) Hleft] Hjpg. unfold highResolution. rewrite Hjpg.
  assert (Hseg : includes s "/s-l" = true) by (rewrite Hs; apply includes_app).
  rewrite Hseg. cbn [andb]. rewrite Hs.
  apply replace_first_at.
  - apply match_thumbnail_spec. exists ds. auto.
  - intros p1 p2 -> Hp2.
    destruct (match_thumbnail (p2 +:+ "/s-l" +:+ ds +:+ "." +:+ post)) as [rest'|] eqn:E;
      [exfalso|reflexivity].
    apply match_thumbnail_spec in E as (ds' & E & Hne' & Hds').
    assert (Hat : thumbnail_at s p1 ds' rest').
    { split; [|split; assumption]. rewrite Hs, app_assoc_s, E. reflexivity. }
    apply Hleft in Hat. rewrite length_app_s in Hat.
    destruct p2; [contradiction|]. cbn in Hat. lia.
Qed.

Lemma highResolution_unchanged (s : string) :
  includes s ".jpg" = false \/ (forall pre ds post, ~ thumbnail_at s pre ds post) ->
  highResolution s = s.
Proof.
  unfold highResolution. intros [->|Hnone]; [rewrite andb_false_r; reflexivity|].
  destruct (includes s "/s-l" && includes s ".jpg"); [|reflexivity].
  apply replace_first_none. intros pre t ->.
  destruct (match_thumbnail t) as [rest|] eqn:E; [exfalso|reflexivity].
  apply match_thumbnail_spec in E as (ds & -> & Hne & Hds).
  apply (Hnone pre ds rest). repeat split; assumption.
Qed.

Lemma filterImages_strings (urls : list string) :
  filterImages (map VStr urls) = Ok (http_entries urls).
Proof.
  induction urls as [|u urls IH]; [reflexivity|].
  cbn [map filterImages truthy http_entries List.filter].
  fold (http_entries urls). rewrite IH.
  destruct u as [|c u]; [reflexivity|]. cbn.
  destruct (startsWith (String c u) "http"); reflexivity.
Qed.

Lemma no_earlier_spec (at_start : string -> option string) (pre t : string) :
  no_earlier at_start pre t = true ->
  forall p1 p2, pre = p1 +:+ p2 -> p2 <> "" -> at_start (p2 +:+ t) = None.
Proof.
  induction pre as [|c pre IH]; cbn [no_earlier]; intros H p1 p2 Hp Hp2.
  - destruct p1, p2; try discriminate. contradiction.
  - destruct (at_start (String c pre +:+ t)) eqn:E; [discriminate|].
    destruct p1 as [|x p1]; cbn in Hp.
    + subst p2. exact E.
    + injection Hp as _ Hp. exact (IH H p1 p2 Hp Hp2).
Qed.

Lemma app_split_shorter (a x b y : string) :
  a +:+ x = b +:+ y -> String.length a < String.length b ->
  exists p, b = a +:+ p /\ p <> "" /\ x = p +:+ y.
Proof.
  revert b. induction a as [|c a IH]; intros b H Hlen.
  - cbn in H. exists b. destruct b; [cbn in Hlen; lia|]. auto.
  - destruct b as [|d b]; [cbn in Hlen; lia|]. cbn in H, Hlen.
    injection H as -> H. destruct (IH b H) as (p & -> & Hp & ->); [lia|].
    exists p. auto.
Qed.

Lemma first_thumbnail_at_intro (pre ds post : string) :
  ds <> "" -> all_digits ds = true ->
  no_earlier match_thumbnail pre ("/s-l" +:+ ds +:+ "." +:+ post) = true ->
  first_thumbnail_at (pre +:+ "/s-l" +:+ ds +:+ "." +:+ post) pre ds post.
Proof.
  intros Hne Hds Hno. split; [repeat split; assumption|].
  intros pre' ds' post' (Hs & Hne' & Hds').
  destruct (Nat.le_gt_cases (String.length pre) (String.length pre')) as [|Hlt];
    [assumption|exfalso].
  symmetry in Hs. destruct (app_split_shorter _ _ _ _ Hs Hlt) as (p & Hpre & Hp & Hx).
  pose proof (no_earlier_spec _ _ _ Hno pre' p Hpre Hp) as Hnone.
  rewrite <- Hx in Hnone.
  assert (Hsome : match_thumbnail ("/s-l" +:+ ds' +:+ "." +:+ post') = Some post')
    by (apply match_thumbnail_spec; exists ds'; auto).
  congruence.
Qed.

(** C6, as stated, fails: an entry whose [.jpg] precedes the segment
    [/s-l500.] does not match the pattern of a segment followed by [.jpg],
    and is rewritten all the same. *)
Lemma images_counterexample :
  spec_thumbnail_pattern jpg_before_segment = false
  /\ formatImages (VObj [("images", VArr [VStr jpg_before_segment])])
     = Ok [VStr "http://x/a.jpg/s-l1600.png"].
Proof. split; vm_compute; reflexivity. Qed.

(** C6, amended. When the body has an image list of strings, the normalizer
    keeps the entries that start with "http", in their order, and maps each
    through [highResolution]: an entry that contains ".jpg" anywhere has the
    digits of its leftmost segment [/s-l<digits>.] rewritten to 1600; an entry
    without ".jpg" or without such a segment is unchanged.  In particular
    ".../s-l500.jpg" becomes ".../s-l1600.jpg". *)
Theorem images_normalized :
  (forall props urls,
      lookup_prop "images" props = VArr (map VStr urls) ->
      formatImages (VObj props)
      = Ok (map (fun u => VStr (highResolution u)) (http_entries urls)))
  /\ (forall s pre ds post,
         first_thumbnail_at s pre ds post ->
         includes s ".jpg" = true ->
         highResolution s = pre +:+ "/s-l1600." +:+ post)
  /\ (forall s,
         includes s ".jpg" = false \/ (forall pre ds post, ~ thumbnail_at s pre ds post) ->
         highResolution s = s)
  /\ highResolution "https://i.ebayimg.com/images/g/abc/s-l500.jpg"
     = "https://i.ebayimg.com/images/g/abc/s-l1600.jpg".
Proof.
  split; [|split; [exact highResolution_first|split; [exact highResolution_unchanged|]]].
  - intros props urls Himgs. unfold formatImages. cbn [get mbind result_bind].
    rewrite Himgs. cbn [truthy as_array mbind result_bind].
    rewrite filterImages_strings. reflexivity.
  - vm_compute. reflexivity.
Qed.

Lemma images_normalized_witness :
  formatImages (VObj [("images", VArr (map VStr ["https://i.ebayimg.com/images/g/abc/s-l500.jpg";
                                                 "data:image/png;base64,AAAA";
                                                 "https://i.ebayimg.com/images/g/abc/main.png"]))])
  = Ok [VStr "https://i.ebayimg.com/images/g/abc/s-l1600.jpg";
        VStr "https://i.ebayimg.com/images/g/abc/main.png"]
  /\ highResolution ("https://i.ebayimg.com/thumbs" +:+ "/s-l" +:+ "225" +:+ "." +:+ "jpg")
     = "https://i.ebayimg.com/thumbs" +:+ "/s-l1600." +:+ "jpg"
  /\ highResolution "https://i.ebayimg.com/images/g/abc/s-l500.png"
     = "https://i.ebayimg.com/images/g/abc/s-l500.png".
Proof.
  split; [|split].
  - exact (proj1 images_normalized
             [("images", VArr (map VStr ["https://i.ebayimg.com/images/g/abc/s-l500.jpg";
                                         "data:image/png;base64,AAAA";
                                         "https://i.ebayimg.com/images/g/abc/main.png"]))]
             ["https://i.ebayimg.com/images/g/abc/s-l500.jpg";
              "data:image/png;base64,AAAA";
              "https://i.ebayimg.com/images/g/abc/main.png"]
             eq_refl).
  - apply (proj1 (proj2 images_normalized) _ "https://i.ebayimg.com/thumbs" "225" "jpg").
    + apply first_thumbnail_at_intro; [discriminate|reflexivity|vm_compute; reflexivity].
    + vm_compute. reflexivity.
  - apply (proj1 (proj2 (proj2 images_normalized))). left. vm_compute. reflexivity.
Defined.

Lemma prefix_cons (a : ascii) (p s : string) :
  String.prefix (String a p) s = true ->
  exists t, s = String a t /\ String.prefix p t = true.
Proof.
  destruct s as [|b t]; cbn; [discriminate|].
  destruct (ascii_dec a b) as [<-|]; [eauto|discriminate].
Qed.

Lemma highResolution_keeps_http (s : string) :
  startsWith s "http" = true -> startsWith (highResolution s) "http" = true.
Proof.
  intros H. unfold highResolution.
  destruct (includes s "/s-l" && includes s ".jpg"); [|exact H].
  unfold startsWith in *.
  apply prefix_cons in H as (s1 & -> & H). apply prefix_cons in H as (s2 & -> & H).
  apply prefix_cons in H as (s3 & -> & H). apply prefix_cons in H as (rest & -> & _).
  cbn. destruct (replace_first _ _ rest); reflexivity.
Qed.

Lemma http_entries_start (urls : list string) :
  Forall (fun u => startsWith u "http" = true) (http_entries urls).
Proof.
  apply Forall_forall. intros u Hu.
  apply list_elem_of_In, filter_In in Hu as [_ Hu]. exact Hu.
Qed.

(** C7. The code breaks the claim on the fallback path.  With an image list
    of strings every entry of the result starts with "http"; without image
    list the main image is taken as it is, so a protocol-relative main image
    becomes an entry of a successful product that starts with no scheme.
    With the main image "https://x/a.jpg" the images are
    ["https://x/a.jpg"]. *)
Theorem main_image_unchecked :
  (forall props urls,
      lookup_prop "images" props = VArr (map VStr urls) ->
      exists kept,
        formatImages (VObj props) = Ok (map VStr kept)
        /\ Forall (fun u => startsWith u "http" = true) kept)
  /\ (exists r,
        scrape_answer relative_image_body = Ok r
        /\ success r = true
        /\ option_map images (data r)
           = Some [VStr "//i.ebayimg.com/images/g/abc/s-l500.jpg"])
  /\ startsWith "//i.ebayimg.com/images/g/abc/s-l500.jpg" "http" = false
  /\ (exists r,
        scrape_answer main_image_body = Ok r
        /\ option_map images (data r) = Some [VStr "https://x/a.jpg"]).
Proof.
  split; [|repeat split; try (eexists; repeat split); vm_compute; reflexivity].
  intros props urls Himgs. exists (map highResolution (http_entries urls)). split.
  - unfold formatImages. cbn [get mbind result_bind].
    rewrite Himgs. cbn [truthy as_array mbind result_bind].
    rewrite filterImages_strings, map_map. reflexivity.
  - apply Forall_map. eapply Forall_impl; [apply http_entries_start|].
    intros u Hu. apply highResolution_keeps_http, Hu.
Qed.

(** ** The pipeline *)

Lemma get_truthy (v : value) (p : string) :
  truthy v = true -> get v p = Ok (get_opt v p).
Proof. destruct v; cbn; intros H; try discriminate; reflexivity. Qed.

(** C2, as stated, fails: a body with a title and the explicit price 0 does
    not pass the check, and the call ends in the failure instead of a
    product; a body that lacks only the title fails as well. *)
Lemma essential_check_counterexample :
  checkEssential zero_price_body
  = Throw (createScraperError INCOMPLETE_MESSAGE "API_ERROR")
  /\ scrape_answer zero_price_body
     = Ok {| success := false; data := None; error := Some INCOMPLETE_MESSAGE |}
  /\ checkEssential untitled_body
     = Throw (createScraperError INCOMPLETE_MESSAGE "API_ERROR")
  /\ truthy (get_opt (get_opt untitled_body "price") "value") = true.
Proof. repeat split; vm_compute; reflexivity. Qed.

(** C2, amended. On a body that is not empty, the check of the essential
    fields fails with the API_ERROR message of incomplete product data exactly
    when the title or the price value is falsy (absent, null, empty or
    zero); so a body with a title and the explicit price 0 fails, and a body
    whose title and price value are both truthy passes and is handed to the
    normalizer. *)
Theorem essential_check (apiData : value) :
  truthy apiData = true ->
  keys_empty apiData = false ->
  let title := get_opt apiData "title" in
  let priceValue := get_opt (get_opt apiData "price") "value" in
  (truthy title = false \/ truthy priceValue = false ->
   checkEssential apiData = Throw (createScraperError INCOMPLETE_MESSAGE "API_ERROR")
   /\ validateResponse (envelope apiData)
      = Throw (createScraperError INCOMPLETE_MESSAGE "API_ERROR"))
  /\ (truthy title = true /\ truthy priceValue = true ->
      checkEssential apiData = Ok ()
      /\ validateResponse (envelope apiData) = Ok apiData)
  /\ (truthy title = true -> priceValue = VNum 0 ->
      checkEssential apiData = Throw (createScraperError INCOMPLETE_MESSAGE "API_ERROR")).
Proof.
  intros Hbody Hkeys title priceValue.
  assert (Hcheck : checkEssential apiData
                   = if negb (truthy title) || negb (truthy priceValue)
                     then Throw (createScraperError INCOMPLETE_MESSAGE "API_ERROR")
                     else Ok ()).
  { unfold checkEssential. rewrite !(get_truthy _ _ Hbody). reflexivity. }
  assert (Hval : validateResponse (envelope apiData)
                 = (_ ← checkEssential apiData; mret apiData)).
  { unfold validateResponse, envelope. cbn -[checkEssential].
    rewrite Hbody, Hkeys. reflexivity. }
  rewrite Hval, Hcheck. clear Hval Hcheck. clearbody title priceValue.
  destruct (truthy title) eqn:T, (truthy priceValue) eqn:P; cbn;
    repeat split; try reflexivity;
    repeat match goal with
      | H : _ \/ _ |- _ => destruct H
      | H : _ /\ _ |- _ => destruct H
      end; try congruence.
  intros _ ->. discriminate P.
Qed.

Lemma essential_check_witness :
  (checkEssential widget_body = Ok ()
   /\ validateResponse (envelope widget_body) = Ok widget_body)
  /\ checkEssential zero_price_body
     = Throw (createScraperError INCOMPLETE_MESSAGE "API_ERROR").
Proof.
  split.
  - apply (essential_check widget_body eq_refl eq_refl). split; reflexivity.
  - apply (essential_check zero_price_body eq_refl eq_refl); reflexivity.
Defined.

(** ** The exceptions of the [try] block *)

Lemma internal_Ok {A : Type} (a : A) : throws_internal (Ok a).
Proof. intros e H. discriminate H. Qed.

Lemma internal_Throw {A : Type} (e : exn) : internal e -> throws_internal (@Throw A e).
Proof. intros He e' [= <-]. exact He. Qed.

Lemma internal_bind {A B : Type} (m : result A) (k : A -> result B) :
  throws_internal m -> (forall a, throws_internal (k a)) -> throws_internal (m ≫= k).
Proof.
  intros Hm Hk e. destruct m as [a|e']; cbn.
  - apply Hk.
  - intros [= <-]. apply Hm. reflexivity.
Qed.

Lemma internal_mapM {A B : Type} (f : A -> result B) (l : list A) :
  (forall a, throws_internal (f a)) -> throws_internal (mapM f l).
Proof.
  intros Hf. induction l as [|a l IH]; cbn [mapM]; [apply internal_Ok|].
  apply internal_bind; [apply Hf|]. intros b.
  apply internal_bind; [exact IH|]. intros bs. apply internal_Ok.
Qed.

Lemma internal_fold_leftM {A B : Type} (f : A -> B -> result A) (l : list B) :
  (forall a b, throws_internal (f a b)) -> forall a, throws_internal (fold_leftM f l a).
Proof.
  intros Hf. induction l as [|b l IH]; intros a; cbn [fold_leftM]; [apply internal_Ok|].
  apply internal_bind; [apply Hf|exact IH].
Qed.

Lemma internal_get (v : value) (p : string) : throws_internal (get v p).
Proof. destruct v; cbn; solve [apply internal_Ok | apply internal_Throw; exact I]. Qed.

Lemma internal_as_array (v : value) (method : string) : throws_internal (as_array v method).
Proof. destruct v; cbn; solve [apply internal_Ok | apply internal_Throw; exact I]. Qed.

Lemma internal_as_string (v : value) (receiver method : string) :
  throws_internal (as_string v receiver method).
Proof. destruct v; cbn; solve [apply internal_Ok | apply internal_Throw; exact I]. Qed.

Lemma internal_entries (v : value) : throws_internal (entries v).
Proof. destruct v; cbn; solve [apply internal_Ok | apply internal_Throw; exact I]. Qed.

Ltac internal_step :=
  first
    [ apply internal_Ok
    | apply internal_Throw; exact I
    | apply internal_get
    | apply internal_as_array
    | apply internal_as_string
    | apply internal_entries
    | apply internal_mapM; intros
    | apply internal_fold_leftM; intros
    | apply internal_bind; [|intros]
    | match goal with
      | |- throws_internal (if ?b then _ else _) => destruct b
      | |- throws_internal (match ?x with _ => _ end) => destruct x
      | |- throws_internal (let '(_, _) := ?x in _) => destruct x
      end ].

Lemma internal_parseEntry acc entry : throws_internal (parseEntry acc entry).
Proof. unfold parseEntry. repeat internal_step. Qed.

Lemma internal_formatEbayVariants (options : value) :
  throws_internal (formatEbayVariants options).
Proof.
  unfold formatEbayVariants. repeat internal_step.
  unfold parseOption. repeat internal_step. apply internal_parseEntry.
Qed.

Lemma internal_filterImages (imgs : list value) : throws_internal (filterImages imgs).
Proof.
  induction imgs as [|img imgs IH]; cbn [filterImages]; [apply internal_Ok|].
  destruct (truthy img); [|exact IH].
  apply internal_bind; [apply internal_as_string|]. intros s.
  apply internal_bind; [exact IH|]. intros kept. apply internal_Ok.
Qed.

Lemma internal_validateResponse (response_data : value) :
  throws_internal (validateResponse response_data).
Proof. unfold validateResponse, checkEssential. repeat internal_step. Qed.

Section Internal.

Variable numberToString : float -> string.
Variables parseFloat parseInt : string -> float.

Lemma internal_ToString (v : value) : throws_internal (ToString numberToString v).
Proof. unfold ToString. repeat internal_step. Qed.

Lemma internal_infoLine (info : value) : throws_internal (infoLine numberToString info).
Proof. unfold infoLine. repeat first [apply internal_ToString | internal_step]. Qed.

Lemma internal_normalize (ebayUrl itemId : string) (apiData : value) :
  throws_internal (normalize numberToString parseFloat parseInt ebayUrl itemId apiData).
Proof.
  unfold normalize, formatImages, formatDescription, formatRating, formatReviewsCount,
    formatCategories, formatSpecifications, formatBulletPoints, formatAvailability,
    infoEntry, entryKey.
  repeat first
    [ apply internal_ToString | apply internal_infoLine | apply internal_filterImages
    | apply internal_formatEbayVariants | internal_step ].
Qed.

End Internal.

Section Pipeline.

Variable numberToString : float -> string.
Variables parseFloat parseInt : string -> float.
Variable RAPIDAPI_KEY : option string.
Variable post : Request -> Outcome.

#[local] Abbreviation run_try :=
  (try_block numberToString parseFloat parseInt RAPIDAPI_KEY post).
#[local] Abbreviation scrape :=
  (scrapeEbayProduct numberToString parseFloat parseInt RAPIDAPI_KEY post).

(** The [catch] block returns a failure, unless the error is an Axios error
    whose message has no conversion to a string: then it throws. *)
Lemma catch_block_outcome (e : exn) :
  (exists message, catch_block numberToString e = Ok (failure message))
  \/ (exists message response_data,
        e = AxiosError message response_data
        /\ convertible (axios_message message response_data) = false
        /\ catch_block numberToString e = Throw (TypeError CONVERSION_MESSAGE)).
Proof.
  destruct e as [message code|message|message response_data|v]; cbn [catch_block];
    try (left; eexists; reflexivity).
  fold (axios_message message response_data). unfold ToString.
  destruct (convertible (axios_message message response_data)) eqn:E.
  - left. eexists. reflexivity.
  - right. exists message, response_data. repeat split; assumption.
Qed.

Lemma catch_block_failure (e : exn) (r : ScrapeResult) :
  catch_block numberToString e = Ok r ->
  exists message, r = failure message.
Proof.
  destruct (catch_block_outcome e) as [[message ->]|(m & d & _ & _ & ->)].
  - intros [= <-]. eauto.
  - discriminate.
Qed.

Lemma scrape_try (ebayUrl : string) (apiKey : option string) :
  scrape ebayUrl apiKey
  = (match fst (run_try ebayUrl apiKey) with
     | Ok productData =>
         Ok {| success := true; data := Some productData; error := None |}
     | Throw e => catch_block numberToString e
     end, snd (run_try ebayUrl apiKey)).
Proof.
  unfold scrapeEbayProduct. destruct (run_try _ _). reflexivity.
Qed.

Lemma scrape_success (ebayUrl : string) (apiKey : option string)
    (r : ScrapeResult) (p : ScrapedProduct) :
  fst (scrape ebayUrl apiKey) = Ok r ->
  data r = Some p ->
  exists itemId apiData,
    normalize numberToString parseFloat parseInt ebayUrl itemId apiData = Ok p.
Proof.
  rewrite scrape_try. cbn [fst].
  destruct (fst (run_try ebayUrl apiKey)) as [productData|e] eqn:E.
  - intros [= <-]. cbn. intros [= <-]. revert E. unfold try_block.
    destruct (negb (includes ebayUrl "ebay.")); [discriminate|].
    destruct (extractItemId ebayUrl) as [[|c itemId]|]; try discriminate.
    destruct (rapidApiKey RAPIDAPI_KEY apiKey) as [[|k key]|]; try discriminate.
    cbn [fst]. destruct (post _) as [response_data|e]; [|discriminate].
    intros H. bind_inv H as apiData Hv. eauto.
  - intros H. destruct (catch_block_failure e r H) as [message ->]. discriminate.
Qed.

(** An Axios error of the [try] block is the rejection of its request. *)
Lemma try_block_axios (ebayUrl : string) (apiKey : option string)
    (message : string) (response_data : option value) :
  fst (run_try ebayUrl apiKey) = Throw (AxiosError message response_data) ->
  exists key,
    snd (run_try ebayUrl apiKey) = [request ebayUrl key]
    /\ post (request ebayUrl key) = Rejected (AxiosError message response_data).
Proof.
  unfold try_block.
  destruct (negb (includes ebayUrl "ebay.")); [discriminate|].
  destruct (extractItemId ebayUrl) as [[|c itemId]|]; try discriminate.
  destruct (rapidApiKey RAPIDAPI_KEY apiKey) as [[|k key]|]; try discriminate.
  cbn [fst snd]. destruct (post _) as [answer|e] eqn:P.
  - intros H. exfalso.
    assert (Hin : throws_internal
                    (apiData ← validateResponse answer;
                     normalize numberToString parseFloat parseInt ebayUrl
                       (String c itemId) apiData)).
    { apply internal_bind; [apply internal_validateResponse|]. intros apiData.
      apply internal_normalize. }
    exact (Hin _ H).
  - intros [= ->]. exists (String k key). split; [reflexivity|exact P].
Qed.

(** The outcomes of a call: one of the two tagged shapes, unless the request
    was rejected with a message that has no conversion to a string. *)
Lemma scrape_outcome (ebayUrl : string) (apiKey : option string) :
  (exists productData,
      fst (scrape ebayUrl apiKey)
      = Ok {| success := true; data := Some productData; error := None |})
  \/ (exists message, fst (scrape ebayUrl apiKey) = Ok (failure message))
  \/ (exists key message response_data,
        scrape ebayUrl apiKey
        = (Throw (TypeError CONVERSION_MESSAGE), [request ebayUrl key])
        /\ post (request ebayUrl key) = Rejected (AxiosError message response_data)
        /\ convertible (axios_message message response_data) = false).
Proof.
  rewrite scrape_try. cbn [fst].
  destruct (fst (run_try ebayUrl apiKey)) as [productData|e] eqn:E.
  - left. eauto.
  - right. destruct (catch_block_outcome e) as [[message ->]|(m & d & -> & Hc & ->)].
    + left. eauto.
    + right. destruct (try_block_axios _ _ _ _ E) as (key & -> & Hpost).
      exists key, m, d. auto.
Qed.

Lemma normalize_variants (ebayUrl itemId : string) (apiData : value) (p : ScrapedProduct) :
  normalize numberToString parseFloat parseInt ebayUrl itemId apiData = Ok p ->
  exists input vd,
    formatEbayVariants input = Ok vd
    /\ options p = vd_options vd
    /\ variants p = map (withPrice (price p)) (vd_variants vd).
Proof.
  unfold normalize. intros H.
  bind_inv H as priceObject H1. bind_inv H as priceValue H2.
  bind_inv H as imgs H3. bind_inv H as descr H4. bind_inv H as opts H5.
  bind_inv H as vd Hvd.
  repeat (let x := fresh "x" in let Hx := fresh "Hx" in
          apply bind_Ok in H; destruct H as (x & Hx & H)).
  injection H as <-. cbn [options variants price]. eauto.
Qed.

Lemma withPrice_unpriced (basePrice : value) (v : ProductVariant) :
  v_price v = None -> v_price (withPrice basePrice v) = Some basePrice.
Proof. intros H. unfold withPrice. cbn. rewrite H. reflexivity. Qed.

(** C4. On a URL with the eBay marker and an item identifier, when the
    [apiKey] argument is null or empty and no RAPIDAPI_KEY is configured, the
    result is the API_KEY_MISSING failure and no request has been sent. *)
Theorem missing_key_no_request (ebayUrl : string) (apiKey : option string) :
  includes ebayUrl "ebay." = true ->
  has_item_path ebayUrl ->
  apiKey = None \/ apiKey = Some "" ->
  RAPIDAPI_KEY = None \/ RAPIDAPI_KEY = Some "" ->
  try_block numberToString parseFloat parseInt RAPIDAPI_KEY post ebayUrl apiKey
  = (Throw (createScraperError KEY_MISSING_MESSAGE "API_KEY_MISSING"), [])
  /\ scrapeEbayProduct numberToString parseFloat parseInt RAPIDAPI_KEY post
      ebayUrl apiKey
     = (Ok {| success := false; data := None; error := Some KEY_MISSING_MESSAGE |}, []).
Proof.
  intros Hmarker Hpath Hkey Henv.
  assert (Htry : run_try ebayUrl apiKey
                 = (Throw (createScraperError KEY_MISSING_MESSAGE "API_KEY_MISSING"), [])).
  { unfold try_block. rewrite Hmarker. cbn [negb].
    destruct (extractItemId ebayUrl) as [itemId|] eqn:E;
      [|apply extractItemId_None in E; contradiction].
    destruct (extractItemId_sound _ _ E) as [Hne _].
    destruct itemId as [|c itemId]; [contradiction|].
    assert (Hnone : rapidApiKey RAPIDAPI_KEY apiKey = None
                    \/ rapidApiKey RAPIDAPI_KEY apiKey = Some "").
    { unfold rapidApiKey. destruct Hkey as [-> | ->]; cbn; exact Henv. }
    destruct Hnone as [-> | ->]; reflexivity. }
  split; [exact Htry|]. rewrite scrape_try, Htry. reflexivity.
Qed.

(** C5. A URL without the marker "ebay.", or without "/itm/" (in either
    case) followed by a digit, ends in an INVALID_URL failure, before any
    request; the first alone suffices, whatever path the URL has. *)
Theorem invalid_url (ebayUrl : string) (apiKey : option string) :
  includes ebayUrl "ebay." = false \/ ~ has_item_path ebayUrl ->
  exists message,
    try_block numberToString parseFloat parseInt RAPIDAPI_KEY post ebayUrl apiKey
    = (Throw (createScraperError message "INVALID_URL"), [])
    /\ scrapeEbayProduct numberToString parseFloat parseInt RAPIDAPI_KEY post
      ebayUrl apiKey
       = (Ok {| success := false; data := None; error := Some message |}, []).
Proof.
  intros H.
  assert (Htry : exists message,
             run_try ebayUrl apiKey
             = (Throw (createScraperError message "INVALID_URL"), [])).
  { unfold try_block. destruct (includes ebayUrl "ebay.") eqn:Hmarker; cbn [negb]; [|eauto].
    destruct H as [H|H]; [discriminate|].
    apply extractItemId_None in H. rewrite H. eauto. }
  destruct Htry as [message Htry]. exists message.
  split; [exact Htry|]. rewrite scrape_try, Htry. reflexivity.
Qed.

(** C10. In every successful product each variant carries the base price of
    the product: the variant expander builds its variants without a price
    (and with the empty identifier, available), and the final mapping gives
    each of them the base price. *)
Theorem variant_price_is_base (ebayUrl : string) (apiKey : option string)
    (r : ScrapeResult) (p : ScrapedProduct) :
  fst (scrapeEbayProduct numberToString parseFloat parseInt RAPIDAPI_KEY post
      ebayUrl apiKey) = Ok r ->
  data r = Some p ->
  Forall (fun v => v_price v = Some (price p)
                   /\ v_itemId v = "" /\ v_available v = true)
    (variants p).
Proof.
  intros Hr H. destruct (scrape_success _ _ _ _ Hr H) as (itemId & apiData & Hn).
  apply normalize_variants in Hn as (input & vd & Hvd & _ & ->).
  apply Forall_map, Forall_forall. intros v Hv.
  destruct (formatEbayVariants_pushed _ _ Hvd v Hv) as (Hid & Hav & Hprice & _).
  split; [apply withPrice_unpriced, Hprice|]. cbn. auto.
Qed.

End Pipeline.

(** C3. The code breaks the claim in its [catch] block.  Every exception of
    the [try] block reaches the [catch] block, which returns the failure
    shape without data; but it builds the text of an Axios error with a
    template literal, outside every [try].  When the request is rejected and
    the answer of the service carries under [message] an object with a
    property [toString], the conversion throws, and the promise of
    [scrapeEbayProduct] is rejected with a TypeError instead of resolving to
    a tagged failure.  Every other call resolves to one of the two tagged
    shapes: success with the product and no error, or failure with an error
    string and no product. *)
Theorem scrapeEbayProduct_tagged :
  scrapeEbayProduct unused_numberToString unused_parse unused_parse None
    (rejects unprintable_error) listing_url (Some "k")
  = (Throw (TypeError "Cannot convert object to primitive value"),
     [request listing_url "k"])
  /\ forall numberToString parseFloat parseInt RAPIDAPI_KEY post ebayUrl apiKey,
       (exists productData,
           fst (scrapeEbayProduct numberToString parseFloat parseInt RAPIDAPI_KEY post
                  ebayUrl apiKey)
           = Ok {| success := true; data := Some productData; error := None |})
       \/ (exists message,
              fst (scrapeEbayProduct numberToString parseFloat parseInt RAPIDAPI_KEY post
                     ebayUrl apiKey)
              = Ok {| success := false; data := None; error := Some message |})
       \/ (exists key message response_data,
              scrapeEbayProduct numberToString parseFloat parseInt RAPIDAPI_KEY post
                ebayUrl apiKey
              = (Throw (TypeError "Cannot convert object to primitive value"),
                 [request ebayUrl key])
              /\ post (request ebayUrl key) = Rejected (AxiosError message response_data)
              /\ convertible
                   (or_else (get_opt (default VUndefined response_data) "message")
                      (VStr message)) = false).
Proof.
  split; [vm_compute; reflexivity|].
  intros numberToString parseFloat parseInt RAPIDAPI_KEY post ebayUrl apiKey.
  exact (scrape_outcome numberToString parseFloat parseInt RAPIDAPI_KEY post
           ebayUrl apiKey).
Qed.

Lemma listing_url_has_item_path : has_item_path listing_url.
Proof.
  exists "https://www.ebay.com", "/itm/", "1"%char, "23456789".
  repeat split; reflexivity.
Qed.

Lemma missing_key_no_request_witness :
  try_block unused_numberToString unused_parse unused_parse None
    (answers widget_body) listing_url None
  = (Throw (createScraperError KEY_MISSING_MESSAGE "API_KEY_MISSING"), [])
  /\ scrapeEbayProduct unused_numberToString unused_parse unused_parse None
       (answers widget_body) listing_url None
     = (Ok {| success := false; data := None; error := Some KEY_MISSING_MESSAGE |}, []).
Proof.
  apply (missing_key_no_request unused_numberToString unused_parse unused_parse None
           (answers widget_body) listing_url None).
  - vm_compute. reflexivity.
  - exact listing_url_has_item_path.
  - left. reflexivity.
  - left. reflexivity.
Defined.

Lemma invalid_url_witness :
  (exists message,
      try_block unused_numberToString unused_parse unused_parse (Some "k")
        (answers widget_body) foreign_url None
      = (Throw (createScraperError message "INVALID_URL"), [])
      /\ scrapeEbayProduct unused_numberToString unused_parse unused_parse (Some "k")
           (answers widget_body) foreign_url None
         = (Ok {| success := false; data := None; error := Some message |}, []))
  /\ (exists message,
         try_block unused_numberToString unused_parse unused_parse (Some "k")
           (answers widget_body) search_url None
         = (Throw (createScraperError message "INVALID_URL"), [])
         /\ scrapeEbayProduct unused_numberToString unused_parse unused_parse (Some "k")
              (answers widget_body) search_url None
            = (Ok {| success := false; data := None; error := Some message |}, [])).
Proof.
  split.
  - apply (invalid_url unused_numberToString unused_parse unused_parse (Some "k")
             (answers widget_body) foreign_url None).
    left. vm_compute. reflexivity.
  - apply (invalid_url unused_numberToString unused_parse unused_parse (Some "k")
             (answers widget_body) search_url None).
    right. apply extractItemId_None. vm_compute. reflexivity.
Defined.

Lemma variant_price_is_base_witness :
  exists r p,
    scrape_answer widget_body = Ok r
    /\ data r = Some p
    /\ price p = VNum 24.5
    /\ length (variants p) = 4
    /\ Forall (fun v => v_price v = Some (price p)
                        /\ v_itemId v = "" /\ v_available v = true)
         (variants p).
Proof.
  eexists. eexists. split; [vm_compute; reflexivity|].
  split; [reflexivity|]. split; [reflexivity|]. split; [reflexivity|].
  eapply (variant_price_is_base unused_numberToString unused_parse unused_parse None
            (answers widget_body) listing_url (Some "k")).
  - vm_compute. reflexivity.
  - reflexivity.
Defined.

(** * Further properties of the code *)

(** ** The order and the content of the variants *)

Lemma generateCombinations_combinations (remaining : list ProductOption) :
  forall currentOptions variants,
    generateCombinations remaining currentOptions variants
    = variants ++ map variantOf (combinations remaining currentOptions).
Proof.
  induction remaining as [|o rest IH]; intros cur acc; [reflexivity|].
  cbn [generateCombinations combinations].
  generalize (values o) as vals. intros vals. revert acc.
  induction vals as [|v vals IHv]; intros acc; cbn [fold_left].
  - cbn. rewrite app_nil_r. reflexivity.
  - rewrite IHv, IH. cbn [mbind list_bind]. rewrite map_app, app_assoc. reflexivity.
Qed.

Lemma formatEbayVariants_combinations (input : value) (r : VariantsData) :
  formatEbayVariants input = Ok r ->
  vd_variants r
  = match vd_options r with
    | [] => []
    | opts => map variantOf (combinations opts ∅)
    end.
Proof.
  intros H. destruct (formatEbayVariants_inv _ _ H) as [[-> ->]|(Hne & _ & ->)];
    [reflexivity|].
  destruct (vd_options r) as [|o opts]; [contradiction|].
  apply generateCombinations_combinations.
Qed.

(** X1. The variants are the cartesian product of the returned options in
    nested order: the first option varies slowest, the values of each option
    come in their filtered order, and every variant has the empty
    identifier, is available and has no price. *)
Theorem variants_in_order (input : value) (r : VariantsData) :
  formatEbayVariants input = Ok r ->
  vd_variants r
  = match vd_options r with
    | [] => []
    | opts => map variantOf (combinations opts ∅)
    end.
Proof.
  intros H. destruct (formatEbayVariants_inv _ _ H) as [[-> ->]|(Hne & _ & Hgen)];
    [reflexivity|].
  rewrite Hgen, generateCombinations_combinations.
  destruct (vd_options r) as [|o opts]; [contradiction|reflexivity].
Qed.

Lemma variants_in_order_witness :
  map (fun v => (v_options v !! "Color", v_options v !! "Size"))
    (generateCombinations (surviving red_blue_sml) ∅ [])
  = [ (Some "Red", Some "S"); (Some "Red", Some "M"); (Some "Red", Some "L");
      (Some "Blue", Some "S"); (Some "Blue", Some "M"); (Some "Blue", Some "L") ].
Proof.
  assert (E := variants_in_order (VArr (map descriptor red_blue_sml))
                 {| vd_options := surviving red_blue_sml;
                    vd_variants := generateCombinations (surviving red_blue_sml) ∅ [] |}).
  cbn [vd_variants] in E. rewrite E.
  - vm_compute. reflexivity.
  - vm_compute. reflexivity.
Defined.

Lemma combinations_other (k : string) (opts : list ProductOption) :
  forall cur m,
    k ∉ map name opts -> m ∈ combinations opts cur -> m !! k = cur !! k.
Proof.
  induction opts as [|o rest IH]; intros cur m Hk Hm.
  - apply list_elem_of_singleton in Hm as ->. reflexivity.
  - cbn [combinations] in Hm. apply list_elem_of_bind in Hm as (v & Hm & _).
    cbn [map] in Hk. apply not_elem_of_cons in Hk as [Hne Hk].
    rewrite (IH _ _ Hk Hm). apply lookup_insert_ne. congruence.
Qed.

Lemma combinations_lookup (opts : list ProductOption) :
  forall cur m o,
    NoDup (map name opts) -> m ∈ combinations opts cur -> o ∈ opts ->
    exists x, m !! name o = Some x /\ x ∈ values o.
Proof.
  induction opts as [|o' rest IH]; intros cur m o Hnd Hm Ho; [inversion Ho|].
  cbn [combinations] in Hm. apply list_elem_of_bind in Hm as (v & Hm & Hv).
  cbn [map] in Hnd. apply NoDup_cons in Hnd as [Hfresh Hnd].
  apply elem_of_cons in Ho as [->|Ho].
  - exists v. split; [|exact Hv].
    rewrite (combinations_other _ _ _ _ Hfresh Hm). apply lookup_insert_eq.
  - eapply IH; eassumption.
Qed.

Lemma combinations_NoDup (opts : list ProductOption) :
  forall cur,
    NoDup (map name opts) -> Forall (fun o => NoDup (values o)) opts ->
    NoDup (combinations opts cur).
Proof.
  induction opts as [|o rest IH]; intros cur Hnd Hvals.
  - apply NoDup_singleton.
  - cbn [map] in Hnd. apply NoDup_cons in Hnd as [Hfresh Hnd].
    apply Forall_cons in Hvals as [Hvo Hvals].
    cbn [combinations]. apply NoDup_bind; [| |exact Hvo].
    + intros v1 v2 m _ _ H1 H2.
      pose proof (combinations_other _ _ _ _ Hfresh H1) as E1.
      pose proof (combinations_other _ _ _ _ Hfresh H2) as E2.
      rewrite lookup_insert_eq in E1, E2. congruence.
    + intros v _. apply IH; assumption.
Qed.

(** X2. When the names of the returned options are pairwise distinct, every
    variant selects, for every returned option, one of that option's
    values. *)
Theorem variant_selects_option_value (input : value) (r : VariantsData)
    (v : ProductVariant) (o : ProductOption) :
  formatEbayVariants input = Ok r ->
  NoDup (map name (vd_options r)) ->
  v ∈ vd_variants r ->
  o ∈ vd_options r ->
  exists x, v_options v !! name o = Some x /\ x ∈ values o.
Proof.
  intros H Hnd Hv Ho. rewrite (formatEbayVariants_combinations _ _ H) in Hv.
  destruct (vd_options r) as [|o' opts] eqn:E; [inversion Ho|].
  apply list_elem_of_fmap in Hv as (m & -> & Hm).
  cbn [v_options variantOf]. eapply combinations_lookup; eassumption.
Qed.

(** X3. When the names of the returned options are pairwise distinct and no
    option lists a value twice, no two variants of the result are equal. *)
Theorem variants_distinct (input : value) (r : VariantsData) :
  formatEbayVariants input = Ok r ->
  NoDup (map name (vd_options r)) ->
  Forall (fun o => NoDup (values o)) (vd_options r) ->
  NoDup (vd_variants r).
Proof.
  intros H Hnd Hvals. rewrite (formatEbayVariants_combinations _ _ H).
  destruct (vd_options r) as [|o opts] eqn:E; [constructor|].
  apply NoDup_fmap_2; [|apply combinations_NoDup; assumption].
  intros m1 m2 Hm. injection Hm as ->. reflexivity.
Qed.

Lemma variant_selects_option_value_witness :
  exists x,
    v_options (variantOf (<["Size" := "S"]> (<["Color" := "Black"]> ∅))) !! "Color" = Some x
    /\ x ∈ ["Black"; "Pink"].
Proof.
  apply (variant_selects_option_value (VArr (map descriptor color_size))
           {| vd_options := surviving color_size;
              vd_variants := generateCombinations (surviving color_size) ∅ [] |}
           (variantOf (<["Size" := "S"]> (<["Color" := "Black"]> ∅)))
           {| name := "Color"; values := ["Black"; "Pink"] |}).
  - vm_compute. reflexivity.
  - apply (bool_decide_unpack _). vm_compute. reflexivity.
  - vm_compute. apply list_elem_of_here.
  - vm_compute. apply list_elem_of_here.
Defined.

Lemma variants_distinct_witness :
  NoDup (generateCombinations (surviving color_size) ∅ []).
Proof.
  apply (variants_distinct (VArr (map descriptor color_size))
           {| vd_options := surviving color_size;
              vd_variants := generateCombinations (surviving color_size) ∅ [] |}).
  - vm_compute. reflexivity.
  - apply (bool_decide_unpack _). vm_compute. reflexivity.
  - vm_compute. repeat constructor; apply (bool_decide_unpack _); vm_compute; reflexivity.
Defined.

(** ** Values that are no strings *)

Lemma fold_leftM_throws {A B : Type} (f : A -> B -> result A) (l : list B) (b : B) :
  b ∈ l ->
  (forall a, exists e, f a b = Throw e) ->
  forall a, exists e, fold_leftM f l a = Throw e.
Proof.
  intros Hb Hf. induction l as [|x l IH]; intros a; [inversion Hb|].
  cbn [fold_leftM]. apply elem_of_cons in Hb as [<-|Hb].
  - destruct (Hf a) as [e ->]. eauto.
  - destruct (f a x) as [a'|e]; [|eauto]. cbn. apply IH, Hb.
Qed.

Lemma mapM_trim_throws (raw : list value) (x : value) :
  x ∈ raw -> (forall s, x <> VStr s) ->
  exists e, mapM (fun v => s ← as_string v "v" "trim"; mret (trim s)) raw = Throw e.
Proof.
  intros Hx Hns. induction raw as [|v raw IH]; [inversion Hx|].
  cbn [mapM]. apply elem_of_cons in Hx as [<-|Hx].
  - destruct x; cbn; eauto. exfalso. eapply Hns. reflexivity.
  - destruct (as_string v "v" "trim") as [s|e]; cbn; [|eauto].
    destruct (IH Hx) as [e He]. cbn in He. rewrite He. eauto.
Qed.

(** X4. A descriptor whose values list holds anything but strings (a number,
    [null], ...) makes the variant expander throw, whatever the other
    descriptors are: no options and no variants are returned. *)
Theorem non_string_value_throws (elems : list value) (optionName : string)
    (others : list (string * value)) (raw : list value) (x : value) :
  VObj ((optionName, VObj (("values", VArr raw) :: others)) :: []) ∈ elems ->
  x ∈ raw ->
  (forall s, x <> VStr s) ->
  exists e, formatEbayVariants (VArr elems) = Throw e.
Proof.
  intros Hd Hx Hns. unfold formatEbayVariants.
  destruct elems as [|d0 elems0] eqn:E; [inversion Hd|]. rewrite <- E in *.
  assert (Hz : negb (truthy (VArr elems)) || length_is_zero (VArr elems) = false)
    by (rewrite E; reflexivity).
  rewrite Hz. cbn [as_array mbind result_bind].
  destruct (fold_leftM_throws parseOption elems _ Hd) with (a := (@nil ProductOption, @nil ProductOption))
    as [e ->]; [|eauto].
  intros [po aov]. unfold parseOption. cbn [entries mbind result_bind fold_leftM].
  unfold parseEntry. cbn [optionValues lookup_prop String.eqb Ascii.eqb Bool.eqb].
  destruct (mapM_trim_throws raw x Hx Hns) as [e ->]. cbn. eauto.
Qed.

(** Sizes given as numbers. *)
Lemma non_string_value_throws_witness :
  exists e,
    formatEbayVariants
      (VArr [descriptor ("Color", ["Black"]);
             VObj [("Size", VObj [("values", VArr [VNum 38; VNum 40])])]])
    = Throw e.
Proof.
  apply (non_string_value_throws _ "Size" [] [VNum 38; VNum 40] (VNum 38)).
  - apply list_elem_of_further, list_elem_of_here.
  - apply list_elem_of_here.
  - discriminate.
Defined.

(** ** The item identifier, continued *)

Lemma span_digits_rest (s ds rest : string) :
  span_digits s = (ds, rest) -> no_leading_digit rest.
Proof.
  revert ds rest. induction s as [|c s IH]; intros ds rest; cbn.
  - intros [= <- <-]. exact I.
  - destruct (is_digit c) eqn:D.
    + destruct (span_digits s) as [ds' rest']. intros [= <- <-]. eapply IH. reflexivity.
    + intros [= <- <-]. exact D.
Qed.

(** X5. [extractItemId] returns the whole run of digits that follows the
    leftmost "/itm/" (in either case) that has a digit after it: the result
    is not empty, holds only digits, and what follows it in the URL does not
    start with a digit. *)
Theorem extractItemId_digits (url id : string) :
  extractItemId url = Some id ->
  id <> "" /\ all_digits id = true
  /\ exists pre m rest,
       url = pre +:+ m +:+ id +:+ rest
       /\ toLowerCase m = "/itm/"
       /\ no_leading_digit rest
       /\ forall p1 p2, pre = p1 +:+ p2 -> p2 <> "" ->
            match_itm (p2 +:+ m +:+ id +:+ rest) = None.
Proof.
  unfold extractItemId. revert id.
  induction url as [|c url IH]; intros id; cbn [first_match].
  - destruct (match_itm "") eqn:E; [discriminate E|discriminate].
  - destruct (match_itm (String c url)) as [id'|] eqn:E.
    + intros [= ->]. unfold match_itm in E.
      destruct (strip_prefix_ci "/itm/" (String c url)) as [t|] eqn:S; [|discriminate].
      destruct (strip_prefix_ci_sound _ _ _ S) as (m & Hm & Hlow).
      destruct (span_digits t) as [ds rest] eqn:D.
      destruct (span_digits_sound _ _ _ D) as [-> Hds].
      pose proof (span_digits_rest _ _ _ D) as Hrest.
      destruct ds as [|d ds]; [discriminate|]. injection E as <-.
      split; [discriminate|]. split; [exact Hds|].
      exists "", m, rest. cbn [append]. repeat split; try assumption.
      intros p1 p2 Hp Hp2. destruct p1, p2; try discriminate. contradiction.
    + intros H. destruct (IH _ H) as (Hne & Hds & pre & m & rest & -> & Hm & Hrest & Hleft).
      split; [exact Hne|]. split; [exact Hds|].
      exists (String c pre), m, rest. repeat split; try assumption.
      intros p1 p2 Hp Hp2. destruct p1 as [|x p1]; cbn [append] in Hp.
      * subst p2. exact E.
      * injection Hp as _ Hp. exact (Hleft p1 p2 Hp Hp2).
Qed.

Lemma extractItemId_digits_witness :
  "123456789" <> "" /\ all_digits "123456789" = true
  /\ exists pre m rest,
       "https://www.EBAY.com/ITM/123456789?hash=item1" = pre +:+ m +:+ "123456789" +:+ rest
       /\ toLowerCase m = "/itm/"
       /\ no_leading_digit rest
       /\ forall p1 p2, pre = p1 +:+ p2 -> p2 <> "" ->
            match_itm (p2 +:+ m +:+ "123456789" +:+ rest) = None.
Proof.
  apply (extractItemId_digits "https://www.EBAY.com/ITM/123456789?hash=item1" "123456789").
  vm_compute. reflexivity.
Defined.

(** ** The pipeline, continued *)

Lemma get_Ok (v x : value) (p q : string) :
  get v p = Ok x -> get v q = Ok (get_opt v q).
Proof. destruct v; cbn; intros H; try discriminate; reflexivity. Qed.

Lemma get_opt_truthy_object (v : value) (p : string) :
  truthy (get_opt v p) = true -> exists props, v = VObj props.
Proof. destruct v; cbn; intros H; try discriminate. eauto. Qed.

Lemma includes_not_empty (s p : string) :
  p <> "" -> includes s p = true -> s <> "".
Proof. intros Hp H ->. cbn in H. destruct p; [contradiction|discriminate]. Qed.

Lemma append_not_empty_r (a b : string) : b <> "" -> a +:+ b <> "".
Proof. destruct a; cbn; [auto|discriminate]. Qed.

Lemma or_else_truthy (a b : value) : truthy b = true -> truthy (or_else a b) = true.
Proof. intros Hb. unfold or_else. destruct (truthy a) eqn:E; assumption. Qed.

Lemma or_else_left (a b : value) : truthy a = true -> or_else a b = a.
Proof. intros Ha. unfold or_else. rewrite Ha. reflexivity. Qed.

Lemma truthy_VStr (s : string) : s <> "" -> truthy (VStr s) = true.
Proof. intros Hs. cbn. destruct (String.eqb_spec s ""); [contradiction|reflexivity]. Qed.

(** What a passed validation says about the answer. *)
Lemma validateResponse_Ok (response_data apiData : value) :
  validateResponse response_data = Ok apiData ->
  apiData = get_opt response_data "body"
  /\ strict_equal_number (get_opt response_data "original_status") 200 = true
  /\ strict_equal_number (get_opt response_data "pc_status") 200 = true
  /\ truthy apiData = true
  /\ keys_empty apiData = false
  /\ truthy (get_opt apiData "title") = true
  /\ truthy (get_opt (get_opt apiData "price") "value") = true.
Proof.
  unfold validateResponse. intros H.
  bind_inv H as os Hos. bind_inv H as ps Hps.
  pose proof (get_Ok _ _ _ "original_status" Hos) as Eos.
  pose proof (get_Ok _ _ _ "pc_status" Hos) as Eps.
  pose proof (get_Ok _ _ _ "body" Hos) as Ebody.
  rewrite Eos in Hos. rewrite Eps in Hps. rewrite Ebody in H.
  injection Hos as <-. injection Hps as <-.
  destruct (strict_equal_number (get_opt response_data "original_status") 200);
    [|discriminate].
  destruct (strict_equal_number (get_opt response_data "pc_status") 200);
    [|discriminate].
  cbn [negb orb mbind result_bind] in H.
  destruct (truthy (get_opt response_data "body")) eqn:T; [|discriminate].
  destruct (keys_empty (get_opt response_data "body")) eqn:K; [discriminate|].
  cbn [negb orb] in H. bind_inv H as u Hu. injection H as <-.
  unfold checkEssential in Hu. rewrite !(get_truthy _ _ T) in Hu. cbn in Hu.
  destruct (truthy (get_opt (get_opt response_data "body") "title")); [|discriminate].
  destruct (truthy (get_opt (get_opt (get_opt response_data "body") "price") "value"));
    [|discriminate].
  repeat split; solve [reflexivity | assumption].
Qed.

Section Answers.

Variable numberToString : float -> string.
Variables parseFloat parseInt : string -> float.
Variable RAPIDAPI_KEY : option string.
Variable post : Request -> Outcome.

#[local] Abbreviation run_try' :=
  (try_block numberToString parseFloat parseInt RAPIDAPI_KEY post).
#[local] Abbreviation scrape' :=
  (scrapeEbayProduct numberToString parseFloat parseInt RAPIDAPI_KEY post).
#[local] Abbreviation normalize' :=
  (normalize numberToString parseFloat parseInt).

(** The [try] block once the URL and the key have passed. *)
Lemma try_block_sends (ebayUrl : string) (apiKey : option string) (key : string) :
  includes ebayUrl "ebay." = true ->
  has_item_path ebayUrl ->
  rapidApiKey RAPIDAPI_KEY apiKey = Some key ->
  key <> "" ->
  exists itemId,
    extractItemId ebayUrl = Some itemId
    /\ run_try' ebayUrl apiKey
       = (match post (request ebayUrl key) with
          | Rejected e => Throw e
          | Resolved response_data =>
              apiData ← validateResponse response_data;
              normalize' ebayUrl itemId apiData
          end, [request ebayUrl key]).
Proof.
  intros Hmarker Hpath Hkey Hne. unfold try_block. rewrite Hmarker. cbn [negb].
  destruct (extractItemId ebayUrl) as [itemId|] eqn:E;
    [|apply extractItemId_None in E; contradiction].
  exists itemId. split; [reflexivity|].
  destruct (extractItemId_sound _ _ E) as [Hid _].
  destruct itemId as [|c itemId]; [contradiction|].
  rewrite Hkey. destruct key as [|k key]; [contradiction|]. reflexivity.
Qed.

(** What a returned product says about the call. *)
Lemma scrape_success_inv (ebayUrl : string) (apiKey : option string)
    (r : ScrapeResult) (p : ScrapedProduct) :
  fst (scrape' ebayUrl apiKey) = Ok r ->
  data r = Some p ->
  exists itemId key response_data apiData,
    includes ebayUrl "ebay." = true
    /\ extractItemId ebayUrl = Some itemId
    /\ rapidApiKey RAPIDAPI_KEY apiKey = Some key
    /\ key <> ""
    /\ snd (scrape' ebayUrl apiKey) = [request ebayUrl key]
    /\ post (request ebayUrl key) = Resolved response_data
    /\ validateResponse response_data = Ok apiData
    /\ normalize' ebayUrl itemId apiData = Ok p.
Proof.
  rewrite scrape_try. cbn [fst snd].
  destruct (fst (run_try' ebayUrl apiKey)) as [productData|e] eqn:E;
    [|intros H; destruct (catch_block_failure numberToString e r H) as [message ->];
      discriminate].
  intros [= <-]. cbn. intros [= <-]. revert E. unfold try_block.
  destruct (includes ebayUrl "ebay."); [|discriminate]. cbn [negb].
  destruct (extractItemId ebayUrl) as [[|c itemId]|]; try discriminate.
  destruct (rapidApiKey RAPIDAPI_KEY apiKey) as [[|k key]|]; try discriminate.
  cbn [fst snd]. destruct (post _) as [response_data|e] eqn:P; [|discriminate].
  intros H. bind_inv H as apiData Hv.
  exists (String c itemId), (String k key), response_data, apiData.
  repeat split; try assumption; try reflexivity. discriminate.
Qed.

Lemma key_in_use_rapidApiKey (apiKey : option string) (key : string) :
  key_in_use RAPIDAPI_KEY apiKey key ->
  rapidApiKey RAPIDAPI_KEY apiKey = Some key /\ key <> "".
Proof.
  intros [Hne [->|[[->| ->] Henv]]]; (split; [|exact Hne]); cbn; try exact Henv.
  destruct (String.eqb_spec key ""); [contradiction|reflexivity].
Qed.

(** What a built product says about the body. *)
Lemma normalize_inv (ebayUrl itemId : string) (apiData : value) (p : ScrapedProduct) :
  normalize' ebayUrl itemId apiData = Ok p ->
  exists imgs descr vd rating reviews cats specs bullets avail,
    formatImages apiData = Ok imgs
    /\ formatDescription numberToString apiData = Ok descr
    /\ formatEbayVariants (or_else (get_opt apiData "options") (VArr [])) = Ok vd
    /\ formatRating numberToString parseFloat apiData = Ok rating
    /\ formatReviewsCount parseInt apiData = Ok reviews
    /\ formatCategories apiData = Ok cats
    /\ formatSpecifications numberToString apiData = Ok specs
    /\ formatBulletPoints numberToString apiData = Ok bullets
    /\ formatAvailability numberToString apiData = Ok avail
    /\ p = {| itemId := itemId;
              title := get_opt apiData "title";
              description := or_else descr (VStr "No description available");
              price := or_else (get_opt (get_opt apiData "price") "value") (VNum 0);
              currency := or_else (get_opt (get_opt apiData "price") "currency") (VStr "USD");
              images := imgs;
              options := vd_options vd;
              variants := map (withPrice (or_else (get_opt (get_opt apiData "price") "value")
                                            (VNum 0))) (vd_variants vd);
              ebayUrl := or_else (get_opt apiData "url") (VStr ebayUrl);
              specifications := specs;
              bulletPoints := bullets;
              rating := rating;
              ratingsTotal := reviews;
              categories := cats;
              availability := avail |}.
Proof.
  unfold normalize. intros H.
  bind_inv H as priceObject H1. bind_inv H as priceValue H2.
  bind_inv H as imgs H3. bind_inv H as descr H4. bind_inv H as opts H5.
  bind_inv H as vd H6. bind_inv H as rating H7. bind_inv H as reviews H8.
  bind_inv H as cats H9. bind_inv H as ttl H10. bind_inv H as cur H11.
  bind_inv H as url H12. bind_inv H as specs H13. bind_inv H as bullets H14.
  bind_inv H as avail H15. injection H as <-.
  pose proof (get_Ok _ _ _ "price" H1) as E1. rewrite E1 in H1. injection H1 as <-.
  pose proof (get_Ok _ _ _ "options" E1) as E5. rewrite E5 in H5. injection H5 as <-.
  pose proof (get_Ok _ _ _ "title" E1) as E10. rewrite E10 in H10. injection H10 as <-.
  pose proof (get_Ok _ _ _ "url" E1) as E12. rewrite E12 in H12. injection H12 as <-.
  pose proof (get_Ok _ _ _ "value" H2) as E2. rewrite E2 in H2. injection H2 as <-.
  pose proof (get_Ok _ _ _ "currency" E2) as E11. rewrite E11 in H11. injection H11 as <-.
  exists imgs, descr, vd, rating, reviews, cats, specs, bullets, avail.
  repeat split; assumption.
Qed.

(** X6. On a URL with the eBay marker and an item path, with a key in use,
    exactly one request is sent, whatever the service answers: a POST to the
    fixed endpoint with the URL in the body, the fixed host header, the key
    that is in use (the [apiKey] argument before RAPIDAPI_KEY) and the
    timeout of 30000 ms. *)
Theorem request_sent_once (ebayUrl : string) (apiKey : option string) (key : string) :
  includes ebayUrl "ebay." = true ->
  has_item_path ebayUrl ->
  key_in_use RAPIDAPI_KEY apiKey key ->
  snd (scrapeEbayProduct numberToString parseFloat parseInt RAPIDAPI_KEY post
         ebayUrl apiKey)
  = [ {| endpoint := "https://real-time-ebay-data.p.rapidapi.com/product.php";
         body_url := ebayUrl;
         x_rapidapi_host := "real-time-ebay-data.p.rapidapi.com";
         x_rapidapi_key := key;
         timeout := 30000%N |} ].
Proof.
  intros Hmarker Hpath Hkey. apply key_in_use_rapidApiKey in Hkey as [Hkey Hne].
  destruct (try_block_sends ebayUrl apiKey key Hmarker Hpath Hkey Hne) as (itemId & _ & Htry).
  rewrite scrape_try, Htry. reflexivity.
Qed.

(** X7. When the answer is an envelope whose original_status or pc_status is
    not the number 200, the call fails with the message of the failed fetch
    and no product, after its one request. *)
Theorem bad_status_fails (ebayUrl : string) (apiKey : option string) (key : string)
    (envelope_props : list (string * value)) :
  includes ebayUrl "ebay." = true ->
  has_item_path ebayUrl ->
  key_in_use RAPIDAPI_KEY apiKey key ->
  post (request ebayUrl key) = Resolved (VObj envelope_props) ->
  strict_equal_number (lookup_prop "original_status" envelope_props) 200 = false
  \/ strict_equal_number (lookup_prop "pc_status" envelope_props) 200 = false ->
  scrapeEbayProduct numberToString parseFloat parseInt RAPIDAPI_KEY post ebayUrl apiKey
  = (Ok (failure FETCH_FAILED_MESSAGE), [request ebayUrl key]).
Proof.
  intros Hmarker Hpath Hkey Hpost Hstatus.
  apply key_in_use_rapidApiKey in Hkey as [Hkey Hne].
  destruct (try_block_sends ebayUrl apiKey key Hmarker Hpath Hkey Hne) as (itemId & _ & Htry).
  rewrite scrape_try, Htry, Hpost. cbn [fst snd]. unfold validateResponse.
  cbn [get mbind result_bind].
  destruct Hstatus as [-> | ->]; cbn [negb orb]; [reflexivity|].
  rewrite orb_true_r. reflexivity.
Qed.

(** X8. When both statuses are 200 and the body of the envelope is absent,
    falsy or without keys, the call fails with the message of the product
    that was not found, after its one request. *)
Theorem empty_body_fails (ebayUrl : string) (apiKey : option string) (key : string)
    (envelope_props : list (string * value)) :
  includes ebayUrl "ebay." = true ->
  has_item_path ebayUrl ->
  key_in_use RAPIDAPI_KEY apiKey key ->
  post (request ebayUrl key) = Resolved (VObj envelope_props) ->
  strict_equal_number (lookup_prop "original_status" envelope_props) 200 = true ->
  strict_equal_number (lookup_prop "pc_status" envelope_props) 200 = true ->
  truthy (lookup_prop "body" envelope_props) = false
  \/ keys_empty (lookup_prop "body" envelope_props) = true ->
  scrapeEbayProduct numberToString parseFloat parseInt RAPIDAPI_KEY post ebayUrl apiKey
  = (Ok (failure NOT_FOUND_MESSAGE), [request ebayUrl key]).
Proof.
  intros Hmarker Hpath Hkey Hpost Hos Hps Hbody.
  apply key_in_use_rapidApiKey in Hkey as [Hkey Hne].
  destruct (try_block_sends ebayUrl apiKey key Hmarker Hpath Hkey Hne) as (itemId & _ & Htry).
  rewrite scrape_try, Htry, Hpost. cbn [fst snd]. unfold validateResponse.
  cbn [get mbind result_bind]. rewrite Hos, Hps. cbn [negb orb].
  destruct Hbody as [-> | ->]; cbn [negb orb]; [reflexivity|].
  rewrite orb_true_r. reflexivity.
Qed.

(** X9. When the request is rejected with an Axios error, the call fails
    with "Failed to fetch eBay product: " followed by the message of the
    server's answer when that answer carries a non-empty text under
    [message], and by the message of the error when there was no answer or
    its [message] is falsy. *)
Theorem rejected_request (ebayUrl : string) (apiKey : option string) (key : string)
    (message : string) (response_data : option value) :
  includes ebayUrl "ebay." = true ->
  has_item_path ebayUrl ->
  key_in_use RAPIDAPI_KEY apiKey key ->
  post (request ebayUrl key) = Rejected (AxiosError message response_data) ->
  (forall answer text,
      response_data = Some answer ->
      get_opt answer "message" = VStr text -> text <> "" ->
      scrapeEbayProduct numberToString parseFloat parseInt RAPIDAPI_KEY post
        ebayUrl apiKey
      = (Ok (failure ("Failed to fetch eBay product: " +:+ text)), [request ebayUrl key]))
  /\ (response_data = None
      \/ (exists answer, response_data = Some answer
                         /\ truthy (get_opt answer "message") = false) ->
      scrapeEbayProduct numberToString parseFloat parseInt RAPIDAPI_KEY post
        ebayUrl apiKey
      = (Ok (failure ("Failed to fetch eBay product: " +:+ message)), [request ebayUrl key])).
Proof.
  intros Hmarker Hpath Hkey Hpost.
  apply key_in_use_rapidApiKey in Hkey as [Hkey Hne].
  destruct (try_block_sends ebayUrl apiKey key Hmarker Hpath Hkey Hne) as (itemId & _ & Htry).
  rewrite scrape_try, Htry, Hpost. cbn [fst snd catch_block]. split.
  - intros answer text -> Hmsg Htext. cbn [default from_option id]. rewrite Hmsg.
    rewrite (or_else_left _ _ (truthy_VStr _ Htext)). reflexivity.
  - intros [-> | (answer & -> & Hfalsy)]; cbn [default from_option id]; [reflexivity|].
    unfold or_else. rewrite Hfalsy. reflexivity.
Qed.

(** X10. A product is returned only after one request that was answered with
    both statuses 200; its item identifier is the one extracted from the URL,
    its title and its price are the title and the price value of the body,
    and both are truthy: the default price 0 is never used. *)
Theorem product_of_answer (ebayUrl : string) (apiKey : option string)
    (r : ScrapeResult) (p : ScrapedProduct) :
  fst (scrapeEbayProduct numberToString parseFloat parseInt RAPIDAPI_KEY post
         ebayUrl apiKey) = Ok r ->
  data r = Some p ->
  exists key response_data,
    snd (scrapeEbayProduct numberToString parseFloat parseInt RAPIDAPI_KEY post
           ebayUrl apiKey) = [request ebayUrl key]
    /\ post (request ebayUrl key) = Resolved response_data
    /\ strict_equal_number (get_opt response_data "original_status") 200 = true
    /\ strict_equal_number (get_opt response_data "pc_status") 200 = true
    /\ extractItemId ebayUrl = Some (itemId p)
    /\ title p = get_opt (get_opt response_data "body") "title"
    /\ truthy (title p) = true
    /\ price p = get_opt (get_opt (get_opt response_data "body") "price") "value"
    /\ truthy (price p) = true.
Proof.
  intros Hr H.
  destruct (scrape_success_inv _ _ _ _ Hr H)
    as (extracted & key & response_data & apiData & _ & Hid & _ & _ & Hsent & Hpost & Hv & Hn).
  apply validateResponse_Ok in Hv as (-> & Hos & Hps & _ & _ & Htitle & Hprice).
  apply normalize_inv in Hn
    as (imgs & descr & vd & rating & reviews & cats & specs & bullets & avail
        & _ & _ & _ & _ & _ & _ & _ & _ & _ & ->).
  exists key, response_data. cbn [itemId title price].
  rewrite (or_else_left _ _ Hprice). repeat split; assumption.
Qed.

Lemma ToString_Ok (v : value) (text : string) :
  ToString numberToString v = Ok text -> text = toString numberToString v.
Proof. unfold ToString. destruct (convertible v); [congruence|discriminate]. Qed.

Lemma formatAvailability_truthy (apiData avail : value) :
  formatAvailability numberToString apiData = Ok avail -> truthy avail = true.
Proof.
  unfold formatAvailability. intros H. bind_inv H as q Hq.
  destruct (truthy q).
  - bind_inv H as quantity Hquantity. injection H as <-.
    apply truthy_VStr, append_not_empty_r. discriminate.
  - bind_inv H as c Hc. injection H as <-. apply or_else_truthy. reflexivity.
Qed.

(** X11. In every returned product the description, the currency, the URL
    and the availability are truthy: each has a fallback that is not empty
    ("No description available", "USD", the URL of the call, "Available"). *)
Theorem product_never_blank (url : string) (apiKey : option string)
    (r : ScrapeResult) (p : ScrapedProduct) :
  fst (scrapeEbayProduct numberToString parseFloat parseInt RAPIDAPI_KEY post
         url apiKey) = Ok r ->
  data r = Some p ->
  truthy (description p) = true
  /\ truthy (currency p) = true
  /\ truthy (ebayUrl p) = true
  /\ truthy (availability p) = true.
Proof.
  intros Hr H.
  destruct (scrape_success_inv _ _ _ _ Hr H)
    as (extracted & key & response_data & apiData & Hmarker & _ & _ & _ & _ & _ & _ & Hn).
  apply normalize_inv in Hn
    as (imgs & descr & vd & rating & reviews & cats & specs & bullets & avail
        & _ & _ & _ & _ & _ & _ & _ & _ & Havail & ->).
  cbn [description currency ebayUrl availability].
  repeat split; try (apply or_else_truthy; reflexivity).
  - apply or_else_truthy, truthy_VStr.
    apply (includes_not_empty _ "ebay."); [discriminate|exact Hmarker].
  - eapply formatAvailability_truthy, Havail.
Qed.

Lemma mapM_infoLine (infos : list value) (lines : list string) :
  mapM (infoLine numberToString) infos = Ok lines ->
  lines = map (info_line numberToString) infos.
Proof.
  revert lines. induction infos as [|info infos IH]; intros lines H.
  - injection H as <-. reflexivity.
  - cbn [mapM] in H. bind_inv H as l Hl. bind_inv H as ls Hls. injection H as <-.
    rewrite (IH _ Hls). unfold infoLine in Hl.
    bind_inv Hl as n Hn. bind_inv Hl as name_text Hname.
    bind_inv Hl as v Hv. bind_inv Hl as value_text Hvalue. injection Hl as <-.
    pose proof (get_Ok _ _ _ "name" Hn) as En. pose proof (get_Ok _ _ _ "value" Hn) as Ev.
    rewrite En in Hn. rewrite Ev in Hv. injection Hn as <-. injection Hv as <-.
    apply ToString_Ok in Hname as ->. apply ToString_Ok in Hvalue as ->.
    reflexivity.
Qed.

Lemma mapM_infoEntry (infos : list value) (entries : list (value * value))
    (es : list (string * value)) :
  mapM infoEntry infos = Ok entries ->
  mapM (entryKey numberToString) entries = Ok es ->
  es = map (info_entry numberToString) infos.
Proof.
  revert entries es. induction infos as [|info infos IH]; intros entries es H K.
  - injection H as <-. injection K as <-. reflexivity.
  - cbn [mapM] in H. bind_inv H as e He. bind_inv H as entries' Hentries.
    injection H as <-. cbn [mapM] in K. bind_inv K as e' He'. bind_inv K as es' Hes.
    injection K as <-. rewrite (IH _ _ Hentries Hes). unfold infoEntry in He.
    bind_inv He as n Hn. bind_inv He as v Hv. injection He as <-.
    pose proof (get_Ok _ _ _ "name" Hn) as En. pose proof (get_Ok _ _ _ "value" Hn) as Ev.
    rewrite En in Hn. rewrite Ev in Hv. injection Hn as <-. injection Hv as <-.
    unfold entryKey in He'. cbn [fst snd] in He'. bind_inv He' as key Hkey.
    injection He' as <-. apply ToString_Ok in Hkey as ->. reflexivity.
Qed.

Lemma join_not_empty (sep p : string) (rest : list string) :
  p <> "" -> join sep (p :: rest) <> "".
Proof.
  intros Hp. cbn [join]. destruct rest; [exact Hp|].
  destruct p; [contradiction|discriminate].
Qed.

Lemma info_line_not_empty (info : value) : info_line numberToString info <> "".
Proof. unfold info_line. apply append_not_empty_r. discriminate. Qed.

(** X12. The description of a built product is the description of the body
    when that is truthy; otherwise the lines "<name>: <value>" of the product
    information joined by newlines when there are any; otherwise "No
    description available". *)
Theorem description_source (ebayUrl itemId : string) (apiData : value)
    (p : ScrapedProduct) :
  normalize numberToString parseFloat parseInt ebayUrl itemId apiData = Ok p ->
  (truthy (get_opt apiData "description") = true ->
   description p = get_opt apiData "description")
  /\ (truthy (get_opt apiData "description") = false ->
      truthy (get_opt apiData "productInformation") = false ->
      description p = VStr "No description available")
  /\ (truthy (get_opt apiData "description") = false ->
      forall infos,
        get_opt apiData "productInformation" = VArr infos ->
        description p
        = VStr (match infos with
                | [] => "No description available"
                | _ => join newline (map (info_line numberToString) infos)
                end)).
Proof.
  intros Hn.
  apply normalize_inv in Hn
    as (imgs & descr & vd & rating & reviews & cats & specs & bullets & avail
        & _ & Hd & _ & _ & _ & _ & _ & _ & _ & ->).
  cbn [description]. unfold formatDescription in Hd.
  bind_inv Hd as d Hget. bind_inv Hd as pinfo Hpi.
  pose proof (get_Ok _ _ _ "description" Hget) as Ed.
  pose proof (get_Ok _ _ _ "productInformation" Hget) as Epi.
  rewrite Ed in Hget. rewrite Epi in Hpi. injection Hget as <-. injection Hpi as <-.
  split; [|split].
  - intros Ht. rewrite (or_else_left _ _ Ht) in Hd. rewrite Ht in Hd. cbn in Hd.
    injection Hd as <-. apply or_else_left, Ht.
  - intros Hf Hpf. unfold or_else in Hd at 1 2. rewrite Hf, Hpf in Hd. cbn in Hd.
    injection Hd as <-. reflexivity.
  - intros Hf infos Hinfos. unfold or_else in Hd at 1 2. rewrite Hf, Hinfos in Hd.
    cbn [truthy negb andb as_array mbind result_bind] in Hd.
    bind_inv Hd as lines Hl. injection Hd as <-.
    apply mapM_infoLine in Hl as ->. fold newline.
    destruct infos as [|info infos]; [reflexivity|].
    apply or_else_left, truthy_VStr. cbn [map].
    apply join_not_empty, info_line_not_empty.
Qed.

Lemma fold_insert_dom (es : list (string * value)) :
  forall m : gmap string value,
    dom (fold_left (fun m e => <[fst e := snd e]> m) es m)
    = dom m ∪ list_to_set (map fst es).
Proof.
  induction es as [|[k v] es IH]; intros m; cbn [fold_left map list_to_set].
  - rewrite (right_id_L ∅ (∪)). reflexivity.
  - rewrite IH, dom_insert_L. cbn [fst].
    rewrite (comm_L (∪) {[k]} (dom m)), (assoc_L (∪)). reflexivity.
Qed.

Lemma fold_insert_other (k : string) (es : list (string * value)) :
  forall m : gmap string value,
    k ∉ map fst es ->
    fold_left (fun m e => <[fst e := snd e]> m) es m !! k = m !! k.
Proof.
  induction es as [|[k' v'] es IH]; intros m Hk; [reflexivity|].
  cbn [fold_left map fst] in *. apply not_elem_of_cons in Hk as [Hne Hk].
  rewrite (IH _ Hk). apply lookup_insert_ne. congruence.
Qed.

Lemma fromEntries_last (before after : list (string * value)) (k : string) (v : value) :
  k ∉ map fst after ->
  fromEntries (before ++ (k, v) :: after) !! k = Some v.
Proof.
  intros Hk. unfold fromEntries. rewrite fold_left_app. cbn [fold_left fst snd].
  rewrite (fold_insert_other _ _ _ Hk). apply lookup_insert_eq.
Qed.

(** X13. A built product has specifications exactly when it has bullet
    points.  When the product information of the body is a list, the bullet
    points are its lines "<name>: <value>" in order, the keys of the
    specifications are the names of its entries, and each name is mapped to
    the value of the last entry of that name. *)
Theorem specifications_and_bullets (ebayUrl itemId : string) (apiData : value)
    (p : ScrapedProduct) :
  normalize numberToString parseFloat parseInt ebayUrl itemId apiData = Ok p ->
  (is_Some (specifications p) <-> is_Some (bulletPoints p))
  /\ forall infos,
       get_opt apiData "productInformation" = VArr infos ->
       bulletPoints p = Some (map (info_line numberToString) infos)
       /\ exists m,
            specifications p = Some m
            /\ dom m = list_to_set
                         (map (fun info => toString numberToString (get_opt info "name"))
                            infos)
            /\ forall before info after,
                 infos = before ++ info :: after ->
                 toString numberToString (get_opt info "name")
                 ∉ map (fun later => toString numberToString (get_opt later "name")) after ->
                 m !! toString numberToString (get_opt info "name")
                 = Some (get_opt info "value").
Proof.
  intros Hn.
  apply normalize_inv in Hn
    as (imgs & descr & vd & rating & reviews & cats & specs & bullets & avail
        & _ & _ & _ & _ & _ & _ & Hs & Hb & _ & ->).
  cbn [specifications bulletPoints].
  unfold formatSpecifications in Hs. unfold formatBulletPoints in Hb.
  bind_inv Hs as pinfo Hget. bind_inv Hb as pinfo' Hget'.
  pose proof (get_Ok _ _ _ "productInformation" Hget) as E.
  rewrite E in Hget, Hget'. injection Hget as <-. injection Hget' as <-. split.
  - destruct (get_opt apiData "productInformation") as [| |b|x|str|infos|props];
      cbn in Hb; try discriminate Hb.
    + cbn in Hs. injection Hs as <-. injection Hb as <-.
      split; intros [? ?]; discriminate.
    + cbn in Hs. injection Hs as <-. injection Hb as <-.
      split; intros [? ?]; discriminate.
    + cbn [truthy as_array mbind result_bind] in Hs.
      bind_inv Hs as entries Hentries. bind_inv Hs as es Hes. injection Hs as <-.
      bind_inv Hb as lines Hl. injection Hb as <-.
      split; intros _; eexists; reflexivity.
  - intros infos Hinfos. rewrite Hinfos in Hs, Hb.
    cbn [truthy as_array mbind result_bind] in Hs, Hb.
    bind_inv Hs as entries Hentries. bind_inv Hs as es Hes. injection Hs as <-.
    bind_inv Hb as lines Hl. injection Hb as <-.
    apply mapM_infoLine in Hl as ->. apply (mapM_infoEntry _ _ _ Hentries) in Hes as ->.
    split; [reflexivity|]. eexists. split; [reflexivity|]. split.
    + unfold fromEntries. rewrite fold_insert_dom, dom_empty_L, (left_id_L ∅ (∪)).
      rewrite map_map. reflexivity.
    + intros before info after -> Hlast. rewrite map_app. cbn [map].
      apply fromEntries_last. rewrite map_map. exact Hlast.
Qed.

Lemma remove_commas_clean (s : string) : includes (remove_commas s) "," = false.
Proof.
  induction s as [|c s IH]; [reflexivity|]. cbn [remove_commas].
  destruct (Ascii.eqb_spec c ",") as [->|Hne]; [exact IH|].
  cbn [includes String.prefix]. rewrite IH.
  destruct (ascii_dec "," c) as [<-|_]; [contradiction|reflexivity].
Qed.

(** X14. The ratings total of a built product is absent when the reviews
    count of the body is falsy; otherwise the count is a string, and the total
    is [parseInt] of that string with every comma removed.  A truthy count
    that is no string never yields a product. *)
Theorem ratings_total_source (ebayUrl itemId : string) (apiData : value)
    (p : ScrapedProduct) :
  normalize numberToString parseFloat parseInt ebayUrl itemId apiData = Ok p ->
  (truthy (get_opt apiData "reviewsCount") = false /\ ratingsTotal p = None)
  \/ exists count,
       get_opt apiData "reviewsCount" = VStr count
       /\ count <> ""
       /\ ratingsTotal p = Some (parseInt (remove_commas count))
       /\ includes (remove_commas count) "," = false.
Proof.
  intros Hn.
  apply normalize_inv in Hn
    as (imgs & descr & vd & rating & reviews & cats & specs & bullets & avail
        & _ & _ & _ & _ & Hr & _ & _ & _ & _ & ->).
  cbn [ratingsTotal]. unfold formatReviewsCount in Hr. bind_inv Hr as c Hc.
  rewrite (get_Ok _ _ _ "reviewsCount" Hc) in Hc. injection Hc as <-.
  destruct (truthy (get_opt apiData "reviewsCount")) eqn:T.
  - right. bind_inv Hr as count Hs. injection Hr as <-.
    destruct (get_opt apiData "reviewsCount"); try discriminate.
    injection Hs as ->. exists count. repeat split.
    + intros ->. discriminate.
    + apply remove_commas_clean.
  - left. injection Hr as <-. auto.
Qed.

End Answers.

Lemma request_sent_once_witness :
  snd (scrapeEbayProduct unused_numberToString unused_parse unused_parse
         (Some "from-env") (answers widget_body) listing_url (Some "from-settings"))
  = [ {| endpoint := "https://real-time-ebay-data.p.rapidapi.com/product.php";
         body_url := listing_url;
         x_rapidapi_host := "real-time-ebay-data.p.rapidapi.com";
         x_rapidapi_key := "from-settings";
         timeout := 30000%N |} ]
  /\ snd (scrapeEbayProduct unused_numberToString unused_parse unused_parse
            (Some "from-env") (rejects timeout_error) listing_url (Some ""))
     = [ {| endpoint := "https://real-time-ebay-data.p.rapidapi.com/product.php";
            body_url := listing_url;
            x_rapidapi_host := "real-time-ebay-data.p.rapidapi.com";
            x_rapidapi_key := "from-env";
            timeout := 30000%N |} ].
Proof.
  split.
  - apply request_sent_once.
    + vm_compute. reflexivity.
    + exact listing_url_has_item_path.
    + split; [discriminate|left; reflexivity].
  - apply request_sent_once.
    + vm_compute. reflexivity.
    + exact listing_url_has_item_path.
    + split; [discriminate|right; split; [right; reflexivity|reflexivity]].
Defined.

Lemma bad_status_fails_witness :
  scrapeEbayProduct unused_numberToString unused_parse unused_parse None
    (answers_raw (VObj not_found_envelope)) listing_url (Some "k")
  = (Ok (failure FETCH_FAILED_MESSAGE), [request listing_url "k"]).
Proof.
  apply (bad_status_fails unused_numberToString unused_parse unused_parse None
           (answers_raw (VObj not_found_envelope)) listing_url (Some "k") "k"
           not_found_envelope).
  - vm_compute. reflexivity.
  - exact listing_url_has_item_path.
  - split; [discriminate|left; reflexivity].
  - reflexivity.
  - left. vm_compute. reflexivity.
Defined.

Lemma empty_body_fails_witness :
  scrapeEbayProduct unused_numberToString unused_parse unused_parse None
    (answers_raw (VObj empty_body_envelope)) listing_url (Some "k")
  = (Ok (failure NOT_FOUND_MESSAGE), [request listing_url "k"]).
Proof.
  apply (empty_body_fails unused_numberToString unused_parse unused_parse None
           (answers_raw (VObj empty_body_envelope)) listing_url (Some "k") "k"
           empty_body_envelope).
  - vm_compute. reflexivity.
  - exact listing_url_has_item_path.
  - split; [discriminate|left; reflexivity].
  - reflexivity.
  - vm_compute. reflexivity.
  - vm_compute. reflexivity.
  - right. reflexivity.
Defined.

Lemma rejected_request_witness :
  scrapeEbayProduct unused_numberToString unused_parse unused_parse None
    (rejects timeout_error) listing_url (Some "k")
  = (Ok (failure "Failed to fetch eBay product: timeout of 30000ms exceeded"),
     [request listing_url "k"]).
Proof.
  destruct (rejected_request unused_numberToString unused_parse unused_parse None
              (rejects timeout_error) listing_url (Some "k") "k"
              "timeout of 30000ms exceeded" None) as [_ H].
  - vm_compute. reflexivity.
  - exact listing_url_has_item_path.
  - split; [discriminate|left; reflexivity].
  - reflexivity.
  - apply H. left. reflexivity.
Defined.

Lemma product_of_answer_witness :
  exists r p,
    scrape_answer widget_body = Ok r
    /\ data r = Some p
    /\ exists key response_data,
        snd (scrapeEbayProduct unused_numberToString unused_parse unused_parse
               None (answers widget_body) listing_url (Some "k"))
        = [request listing_url key]
        /\ answers widget_body (request listing_url key) = Resolved response_data
        /\ strict_equal_number (get_opt response_data "original_status") 200 = true
        /\ strict_equal_number (get_opt response_data "pc_status") 200 = true
        /\ extractItemId listing_url = Some (itemId p)
        /\ title p = get_opt (get_opt response_data "body") "title"
        /\ truthy (title p) = true
        /\ price p = get_opt (get_opt (get_opt response_data "body") "price") "value"
        /\ truthy (price p) = true.
Proof.
  eexists. eexists. split; [vm_compute; reflexivity|]. split; [reflexivity|].
  eapply (product_of_answer unused_numberToString unused_parse unused_parse None
            (answers widget_body) listing_url (Some "k")).
  - vm_compute. reflexivity.
  - reflexivity.
Defined.

Lemma product_never_blank_witness :
  exists r p,
    scrape_answer widget_body = Ok r
    /\ data r = Some p
    /\ truthy (description p) = true /\ truthy (currency p) = true
    /\ truthy (ebayUrl p) = true /\ truthy (availability p) = true.
Proof.
  eexists. eexists. split; [vm_compute; reflexivity|]. split; [reflexivity|].
  eapply (product_never_blank unused_numberToString unused_parse unused_parse None
            (answers widget_body) listing_url (Some "k")).
  - vm_compute. reflexivity.
  - reflexivity.
Defined.

Lemma description_source_witness :
  match detailed_product with
  | Ok p =>
      description p
      = VStr ("Brand: Acme" +:+ newline +:+ "Colour: Red" +:+ newline +:+ "Brand: Apex")
  | Throw _ => False
  end.
Proof.
  unfold detailed_product.
  destruct (normalize _ _ _ listing_url "123456789" detailed_body) as [p|e] eqn:E;
    [|vm_compute in E; discriminate E].
  destruct (description_source _ _ _ _ _ _ _ E) as (_ & _ & H).
  rewrite (H eq_refl _ eq_refl). vm_compute. reflexivity.
Defined.

Lemma specifications_and_bullets_witness :
  match detailed_product with
  | Ok p =>
      bulletPoints p = Some ["Brand: Acme"; "Colour: Red"; "Brand: Apex"]
      /\ exists m, specifications p = Some m
                   /\ dom m = {[ "Brand"; "Colour" ]}
                   /\ m !! "Brand" = Some (VStr "Apex")
  | Throw _ => False
  end.
Proof.
  unfold detailed_product.
  destruct (normalize _ _ _ listing_url "123456789" detailed_body) as [p|e] eqn:E;
    [|vm_compute in E; discriminate E].
  destruct (specifications_and_bullets _ _ _ _ _ _ _ E) as [_ H].
  destruct (H _ eq_refl) as (Hb & m & Hm & Hdom & Hlast).
  split; [rewrite Hb; vm_compute; reflexivity|].
  exists m. split; [exact Hm|]. split.
  - rewrite Hdom. vm_compute. reflexivity.
  - apply (Hlast [VObj [("name", VStr "Brand"); ("value", VStr "Acme")];
                  VObj [("name", VStr "Colour"); ("value", VStr "Red")]]
                 (VObj [("name", VStr "Brand"); ("value", VStr "Apex")]) []).
    + reflexivity.
    + cbn. apply not_elem_of_nil.
Defined.

Lemma ratings_total_source_witness :
  match detailed_product with
  | Ok p =>
      (truthy (get_opt detailed_body "reviewsCount") = false /\ ratingsTotal p = None)
      \/ exists count,
           get_opt detailed_body "reviewsCount" = VStr count
           /\ count <> ""
           /\ ratingsTotal p = Some (unused_parse (remove_commas count))
           /\ includes (remove_commas count) "," = false
  | Throw _ => False
  end.
Proof.
  unfold detailed_product.
  destruct (normalize _ _ _ listing_url "123456789" detailed_body) as [p|e] eqn:E;
    [|vm_compute in E; discriminate E].
  exact (ratings_total_source _ _ _ _ _ _ _ E).
Defined.

(** ** [parsePrice] *)

Lemma app_nil_r_s (s : string) : s +:+ "" = s.
Proof. induction s as [|c s IH]; cbn; [reflexivity|]. rewrite IH. reflexivity. Qed.

Lemma keep_price_chars_all (s : string) : all_price_chars (keep_price_chars s) = true.
Proof.
  induction s as [|c s IH]; [reflexivity|]. cbn [keep_price_chars].
  destruct (is_price_char c) eqn:E; [|exact IH]. cbn. rewrite E. exact IH.
Qed.

Lemma keep_price_chars_id (s : string) :
  all_price_chars s = true -> keep_price_chars s = s.
Proof.
  induction s as [|c s IH]; [reflexivity|]. cbn. intros H.
  apply andb_true_iff in H as [Hc Hs]. rewrite Hc, (IH Hs). reflexivity.
Qed.

Lemma remove_thousand_separators_other (c : ascii) (t : string) :
  Ascii.eqb c "," = false ->
  remove_thousand_separators (String c t) = String c (remove_thousand_separators t).
Proof.
  intros Hc. cbn [remove_thousand_separators].
  destruct t as [|d1 [|d2 [|d3 t']]]; try reflexivity. rewrite Hc. reflexivity.
Qed.

Lemma remove_thousand_separators_all (s : string) :
  all_price_chars s = true -> all_price_chars (remove_thousand_separators s) = true.
Proof.
  remember (String.length s) as n eqn:Hn. revert s Hn.
  induction n as [n IH] using lt_wf_ind. intros s Hn H.
  destruct s as [|c t]; [reflexivity|]. cbn [remove_thousand_separators].
  cbn in H. apply andb_true_iff in H as [Hc Ht].
  assert (Hdef : all_price_chars (String c (remove_thousand_separators t)) = true).
  { cbn. rewrite Hc. apply (IH (String.length t)); [subst n; cbn; lia|reflexivity|exact Ht]. }
  destruct t as [|d1 [|d2 [|d3 t']]]; try exact Hdef.
  destruct (Ascii.eqb c "," && is_digit d1 && is_digit d2 && is_digit d3); [|exact Hdef].
  cbn in Ht. apply andb_true_iff in Ht as [H1 Ht]. apply andb_true_iff in Ht as [H2 Ht].
  apply andb_true_iff in Ht as [H3 Ht]. cbn. rewrite H1, H2, H3.
  apply (IH (String.length t')); [subst n; cbn; lia|reflexivity|exact Ht].
Qed.

Lemma decimal_comma_all (s : string) :
  all_price_chars s = true -> all_price_chars (decimal_comma s) = true.
Proof.
  induction s as [|c s IH]; [reflexivity|]. cbn. intros H.
  apply andb_true_iff in H as [Hc Hs].
  destruct (Ascii.eqb c ","); cbn; [exact Hs|]. rewrite Hc. exact (IH Hs).
Qed.

Lemma cleanPrice_all (text : string) : all_price_chars (cleanPrice text) = true.
Proof.
  unfold cleanPrice.
  apply decimal_comma_all, remove_thousand_separators_all, keep_price_chars_all.
Qed.

Lemma truthy_number_not_NaN (x : float) : truthy (VNum x) = true -> isNaN x = false.
Proof.
  cbn. intros T. apply andb_true_iff in T as [_ T].
  destruct (isNaN x); [discriminate|reflexivity].
Qed.

(** X15. [parsePrice] returns 0 for a falsy input ([undefined], "", 0).  For
    a truthy input that has a conversion to a string it returns [parseFloat]
    of the cleaned conversion, a text of digits, dots and commas only, and 0
    when that number is 0 or NaN; for a truthy input without conversion it
    throws a TypeError.  It never returns NaN. *)
Theorem parsePrice_result (numberToString : float -> string)
    (parseFloat : string -> float) (priceString : value) :
  (truthy priceString = false ->
   parsePrice numberToString parseFloat priceString = Ok 0%float)
  /\ (truthy priceString = true ->
      convertible priceString = true ->
      let cleaned := cleanPrice (toString numberToString priceString) in
      all_price_chars cleaned = true
      /\ parsePrice numberToString parseFloat priceString
         = Ok (if truthy (VNum (parseFloat cleaned)) then parseFloat cleaned else 0%float))
  /\ (truthy priceString = true ->
      convertible priceString = false ->
      parsePrice numberToString parseFloat priceString
      = Throw (TypeError CONVERSION_MESSAGE))
  /\ (forall x,
        parsePrice numberToString parseFloat priceString = Ok x -> isNaN x = false).
Proof.
  unfold parsePrice, ToString. split; [|split; [|split]].
  - intros ->. reflexivity.
  - intros -> ->. split; [apply cleanPrice_all|reflexivity].
  - intros -> ->. reflexivity.
  - intros x. destruct (truthy priceString); cbn [negb]; [|intros [= <-]; reflexivity].
    destruct (convertible priceString); [|discriminate]. cbn [mbind result_bind mret result_ret].
    intros [= <-]. unfold or_zero.
    destruct (truthy (VNum (parseFloat (cleanPrice (toString numberToString priceString)))))
      eqn:T; [apply truthy_number_not_NaN, T|reflexivity].
Qed.

(** The text "$15,50" is cleaned to "15.50" and parsed to 15.5; the object
    of [unprintable_error] as a price throws. *)
Lemma parsePrice_result_witness :
  parsePrice unused_numberToString parseFloat_table (VStr "$15,50") = Ok 15.5%float
  /\ parsePrice unused_numberToString parseFloat_table (VStr "1,234.50 MAD")
     = Ok 1234.5%float
  /\ parsePrice unused_numberToString parseFloat_table (VStr "free") = Ok 0%float
  /\ parsePrice unused_numberToString parseFloat_table (VStr "") = Ok 0%float
  /\ parsePrice unused_numberToString parseFloat_table (VObj [("toString", VNum 1)])
     = Throw (TypeError CONVERSION_MESSAGE).
Proof.
  destruct (parsePrice_result unused_numberToString parseFloat_table (VStr "$15,50"))
    as (_ & H1 & _ & _).
  destruct (parsePrice_result unused_numberToString parseFloat_table (VStr "1,234.50 MAD"))
    as (_ & H2 & _ & _).
  destruct (parsePrice_result unused_numberToString parseFloat_table (VStr "free"))
    as (_ & H3 & _ & _).
  destruct (parsePrice_result unused_numberToString parseFloat_table (VStr ""))
    as (H4 & _ & _ & _).
  destruct (parsePrice_result unused_numberToString parseFloat_table
              (VObj [("toString", VNum 1)])) as (_ & _ & H5 & _).
  split; [|split; [|split; [|split]]].
  - destruct (H1 eq_refl eq_refl) as [_ ->]. vm_compute. reflexivity.
  - destruct (H2 eq_refl eq_refl) as [_ ->]. vm_compute. reflexivity.
  - destruct (H3 eq_refl eq_refl) as [_ ->]. vm_compute. reflexivity.
  - exact (H4 eq_refl).
  - exact (H5 eq_refl eq_refl).
Defined.

Lemma digits_not_comma (c : ascii) : is_digit c = true -> Ascii.eqb c "," = false.
Proof.
  intros H. destruct (Ascii.eqb_spec c ",") as [->|]; [discriminate H|reflexivity].
Qed.

Lemma digit_is_price_char (c : ascii) : is_digit c = true -> is_price_char c = true.
Proof. intros H. unfold is_price_char. rewrite H. reflexivity. Qed.

Lemma all_digits_price_chars (s : string) :
  all_digits s = true -> all_price_chars s = true.
Proof.
  induction s as [|c s IH]; [reflexivity|]. cbn. intros H.
  apply andb_true_iff in H as [Hc Hs]. rewrite (digit_is_price_char c Hc). exact (IH Hs).
Qed.

Lemma all_price_chars_app (a b : string) :
  all_price_chars (a +:+ b) = all_price_chars a && all_price_chars b.
Proof.
  induction a as [|c a IH]; [reflexivity|]. cbn. rewrite IH. apply andb_assoc.
Qed.

Lemma comma_groups_price_chars (groups : list string) :
  Forall three_digits groups -> all_price_chars (comma_groups groups) = true.
Proof.
  induction 1 as [|g groups [_ Hg] _ IH]; [reflexivity|].
  cbn [comma_groups]. rewrite !all_price_chars_app, IH, (all_digits_price_chars g Hg).
  reflexivity.
Qed.

Lemma remove_separators_groups (groups : list string) :
  Forall three_digits groups ->
  remove_thousand_separators (comma_groups groups) = concat_groups groups.
Proof.
  induction 1 as [|g groups [Hlen Hg] _ IH]; [reflexivity|].
  cbn [comma_groups concat_groups].
  destruct g as [|d1 [|d2 [|d3 [|d4 g]]]]; try discriminate Hlen.
  cbn in Hg. apply andb_true_iff in Hg as [H1 Hg]. apply andb_true_iff in Hg as [H2 Hg].
  apply andb_true_iff in Hg as [H3 _].
  cbn [append remove_thousand_separators Ascii.eqb Bool.eqb andb].
  rewrite H1, H2, H3. cbn [andb]. rewrite IH. reflexivity.
Qed.

Lemma remove_separators_digits (a rest : string) :
  all_digits a = true ->
  remove_thousand_separators (a +:+ rest) = a +:+ remove_thousand_separators rest.
Proof.
  induction a as [|c a IH]; [reflexivity|]. cbn [all_digits append]. intros H.
  apply andb_true_iff in H as [Hc Ha].
  rewrite (remove_thousand_separators_other c _ (digits_not_comma c Hc)), (IH Ha).
  reflexivity.
Qed.

Lemma decimal_comma_digits (a rest : string) :
  all_digits a = true -> decimal_comma (a +:+ rest) = a +:+ decimal_comma rest.
Proof.
  induction a as [|c a IH]; [reflexivity|]. cbn [all_digits append decimal_comma]. intros H.
  apply andb_true_iff in H as [Hc Ha]. rewrite (digits_not_comma c Hc), (IH Ha).
  reflexivity.
Qed.

Lemma concat_groups_digits (groups : list string) :
  Forall three_digits groups -> all_digits (concat_groups groups) = true.
Proof.
  induction 1 as [|g groups [_ Hg] _ IH]; [reflexivity|]. cbn [concat_groups].
  revert Hg. induction g as [|c g IHg]; cbn; [intros _; exact IH|].
  intros H. apply andb_true_iff in H as [Hc Hg]. rewrite Hc. exact (IHg Hg).
Qed.

(** X16. Thousands separators are removed: digits followed by groups of
    exactly three digits, each behind a comma, are cleaned to the digits
    alone ("1,234,567" to "1234567"). *)
Theorem cleanPrice_thousands (head : string) (groups : list string) :
  all_digits head = true ->
  Forall three_digits groups ->
  cleanPrice (head +:+ comma_groups groups) = head +:+ concat_groups groups.
Proof.
  intros Hh Hg. unfold cleanPrice.
  rewrite keep_price_chars_id
    by (rewrite all_price_chars_app, (all_digits_price_chars _ Hh),
          (comma_groups_price_chars _ Hg); reflexivity).
  rewrite (remove_separators_digits _ _ Hh), (remove_separators_groups _ Hg).
  rewrite (decimal_comma_digits _ _ Hh).
  rewrite <- (app_nil_r_s (concat_groups groups)) at 1.
  rewrite (decimal_comma_digits _ "" (concat_groups_digits _ Hg)). cbn [decimal_comma].
  rewrite app_nil_r_s. reflexivity.
Qed.

Lemma cleanPrice_thousands_witness : cleanPrice "1,234,567" = "1234567".
Proof.
  apply (cleanPrice_thousands "1" ["234"; "567"]).
  - reflexivity.
  - repeat constructor.
Defined.

Lemma remove_separators_digits_id (b : string) :
  all_digits b = true -> remove_thousand_separators b = b.
Proof.
  intros H. rewrite <- (app_nil_r_s b) at 1.
  rewrite (remove_separators_digits b "" H). apply app_nil_r_s.
Qed.

Lemma decimal_comma_digits_id (b : string) :
  all_digits b = true -> decimal_comma b = b.
Proof.
  intros H. rewrite <- (app_nil_r_s b) at 1.
  rewrite (decimal_comma_digits b "" H). apply app_nil_r_s.
Qed.

Lemma all_digits_app (a b : string) :
  all_digits (a +:+ b) = all_digits a && all_digits b.
Proof.
  induction a as [|c a IH]; [reflexivity|]. cbn. rewrite IH. apply andb_assoc.
Qed.

(** X17. One comma between two runs of digits: when fewer than three digits
    follow, the comma becomes the decimal point ("15,90" to "15.90"); when
    three or more follow, the comma is dropped as a thousands separator and
    no decimal point is written ("15,900" to "15900", "1,2345" to "12345"). *)
Theorem cleanPrice_one_comma (a b : string) :
  all_digits a = true ->
  all_digits b = true ->
  (String.length b < 3 -> cleanPrice (a +:+ "," +:+ b) = a +:+ "." +:+ b)
  /\ (3 <= String.length b -> cleanPrice (a +:+ "," +:+ b) = a +:+ b).
Proof.
  intros Ha Hb. unfold cleanPrice.
  assert (Hall : all_price_chars (a +:+ "," +:+ b) = true).
  { rewrite !all_price_chars_app, (all_digits_price_chars _ Ha),
      (all_digits_price_chars _ Hb). reflexivity. }
  rewrite (keep_price_chars_id _ Hall), (remove_separators_digits _ _ Ha). split.
  - intros Hlen.
    assert (E : remove_thousand_separators ("," +:+ b) = "," +:+ b).
    { destruct b as [|d1 [|d2 [|d3 b']]]; [reflexivity| | |cbn in Hlen; lia];
        cbn [append remove_thousand_separators];
        rewrite <- (remove_separators_digits_id _ Hb) at 2; reflexivity. }
    rewrite E, (decimal_comma_digits _ _ Ha). reflexivity.
  - intros Hlen. destruct b as [|d1 [|d2 [|d3 b']]]; cbn in Hlen; try lia.
    cbn in Hb. apply andb_true_iff in Hb as [H1 Hb]. apply andb_true_iff in Hb as [H2 Hb].
    apply andb_true_iff in Hb as [H3 Hb].
    cbn [append remove_thousand_separators Ascii.eqb Bool.eqb andb].
    rewrite H1, H2, H3. cbn [andb]. rewrite (remove_separators_digits_id _ Hb).
    apply decimal_comma_digits_id. rewrite all_digits_app, Ha. cbn.
    rewrite H1, H2, H3, Hb. reflexivity.
Qed.

Lemma cleanPrice_one_comma_witness :
  cleanPrice "15,90" = "15.90" /\ cleanPrice "15,900" = "15900".
Proof.
  split.
  - apply (proj1 (cleanPrice_one_comma "15" "90" eq_refl eq_refl)). cbn. lia.
  - apply (proj2 (cleanPrice_one_comma "15" "900" eq_refl eq_refl)). cbn. lia.
Defined.

(** ** The history page *)

Lemma existsb_eqb (x : string) (l : list string) :
  existsb (String.eqb x) l = true <-> x ∈ l.
Proof.
  rewrite existsb_exists. split.
  - intros (y & Hy & E). apply String.eqb_eq in E as ->. apply list_elem_of_In, Hy.
  - intros H. exists x. split; [apply list_elem_of_In, H|apply String.eqb_refl].
Qed.

Lemma elem_of_filter_ne (x productId : string) (l : list string) :
  x ∈ List.filter (fun id => negb (String.eqb id productId)) l <-> x ∈ l /\ x <> productId.
Proof.
  rewrite list_elem_of_In, filter_In, <- list_elem_of_In.
  destruct (String.eqb_spec x productId); cbn; intuition congruence.
Qed.

Lemma toggle_elem (productId : string) (prev : list string) :
  (productId ∈ toggleSelectProduct productId prev <-> productId ∉ prev)
  /\ forall other, other <> productId ->
       (other ∈ toggleSelectProduct productId prev <-> other ∈ prev).
Proof.
  unfold toggleSelectProduct.
  destruct (existsb (String.eqb productId) prev) eqn:E.
  - apply existsb_eqb in E. split.
    + rewrite elem_of_filter_ne. intuition.
    + intros other Hne. rewrite elem_of_filter_ne. intuition.
  - assert (Hn : productId ∉ prev).
    { intros H. apply existsb_eqb in H. congruence. }
    split.
    + rewrite elem_of_app, list_elem_of_singleton. intuition.
    + intros other Hne. rewrite elem_of_app, list_elem_of_singleton. intuition.
Qed.

(** X18. Toggling a product flips its membership in the selection and
    leaves the membership of every other product as it was. *)
Theorem toggle_membership (productId : string) (prev : list string) :
  (productId ∈ toggleSelectProduct productId prev <-> productId ∉ prev)
  /\ forall other, other <> productId ->
       (other ∈ toggleSelectProduct productId prev <-> other ∈ prev).
Proof.
  destruct (toggle_elem productId prev) as [Hflip Hothers].
  split.
  - exact Hflip.
  - intros other Hne. exact (Hothers other Hne).
Qed.

(** X19. A selection without repetition stays without repetition under
    toggling, and toggling the same product twice gives back the same set of
    selected products: the same list when the product was not selected, a
    rearrangement of it when it was. *)
Theorem toggle_twice (productId : string) (prev : list string) :
  NoDup prev ->
  NoDup (toggleSelectProduct productId prev)
  /\ toggleSelectProduct productId (toggleSelectProduct productId prev) ≡ₚ prev
  /\ (productId ∉ prev ->
      toggleSelectProduct productId (toggleSelectProduct productId prev) = prev).
Proof.
  intros Hnd.
  assert (Hstep : forall l, NoDup l -> NoDup (toggleSelectProduct productId l)).
  { intros l Hl. unfold toggleSelectProduct.
    destruct (existsb (String.eqb productId) l) eqn:E.
    - apply NoDup_ListNoDup, List.NoDup_filter, NoDup_ListNoDup, Hl.
    - apply NoDup_app. split; [exact Hl|]. split; [|apply NoDup_singleton].
      intros x Hx Hx'. apply list_elem_of_singleton in Hx' as ->.
      apply existsb_eqb in Hx. congruence. }
  split; [exact (Hstep _ Hnd)|]. split.
  - apply NoDup_Permutation; [apply Hstep, Hstep, Hnd|exact Hnd|].
    intros x. destruct (String.eqb_spec x productId) as [->|Hne].
    + rewrite (proj1 (toggle_elem productId _)),
        (proj1 (toggle_elem productId prev)).
      destruct (decide (productId ∈ prev)); intuition.
    + rewrite (proj2 (toggle_elem productId _) x Hne).
      apply (proj2 (toggle_elem productId prev) x Hne).
  - intros Hn. unfold toggleSelectProduct at 2.
    destruct (existsb (String.eqb productId) prev) eqn:E;
      [apply existsb_eqb in E; contradiction|].
    unfold toggleSelectProduct.
    assert (E' : existsb (String.eqb productId) (prev ++ [productId]) = true).
    { apply existsb_eqb, elem_of_app. right. apply list_elem_of_here. }
    rewrite E'. rewrite List.filter_app. cbn [List.filter].
    rewrite String.eqb_refl. cbn [negb]. rewrite app_nil_r.
    apply List.forallb_filter_id, forallb_forall. intros x Hx.
    destruct (String.eqb_spec x productId) as [->|]; [|reflexivity].
    apply list_elem_of_In in Hx. contradiction.
Qed.

Lemma toggle_twice_witness :
  NoDup (toggleSelectProduct "b" ["a"; "b"; "c"])
  /\ toggleSelectProduct "b" (toggleSelectProduct "b" ["a"; "b"; "c"]) ≡ₚ ["a"; "b"; "c"]
  /\ ("b" ∉ ["a"; "b"; "c"] ->
      toggleSelectProduct "b" (toggleSelectProduct "b" ["a"; "b"; "c"]) = ["a"; "b"; "c"]).
Proof.
  apply (toggle_twice "b" ["a"; "b"; "c"]).
  apply (bool_decide_unpack _). vm_compute. reflexivity.
Defined.

Lemma includes_empty (s : string) : includes s "" = true.
Proof. destruct s; reflexivity. Qed.

Lemma toLowerCase_app (a b : string) :
  toLowerCase (a +:+ b) = toLowerCase a +:+ toLowerCase b.
Proof. induction a as [|c a IH]; cbn; [reflexivity|]. rewrite IH. reflexivity. Qed.

(** X20. The filter only hides products: what it lists are products of the
    page, in their order, each of the chosen status unless the status filter
    is "ALL".  Without active filter, as after [clearAllFilters], it lists
    every product. *)
Theorem filter_hides_only (searchTerm filterStatus : string)
    (products : list ImportedProduct) :
  sublist (filteredProducts searchTerm filterStatus products) products
  /\ (forall product,
         product ∈ filteredProducts searchTerm filterStatus products ->
         filterStatus = "ALL" \/ ip_status product = filterStatus)
  /\ (activeFilters searchTerm filterStatus = 0 ->
      filteredProducts searchTerm filterStatus products = products)
  /\ activeFilters (fst clearAllFilters) (snd clearAllFilters) = 0.
Proof.
  split; [|split; [|split; [|reflexivity]]].
  - unfold filteredProducts. induction products as [|p ps IH]; cbn; [constructor|].
    destruct (_ && _); [apply sublist_skip|apply sublist_cons]; exact IH.
  - intros product H. unfold filteredProducts in H.
    apply list_elem_of_In, filter_In in H as [_ H].
    apply andb_true_iff in H as [_ H]. unfold matchesStatus in H.
    apply orb_true_iff in H as [H|H]; apply String.eqb_eq in H; auto.
  - unfold activeFilters. intros H.
    destruct (String.eqb_spec searchTerm "") as [->|]; [|discriminate H].
    destruct (String.eqb_spec filterStatus "ALL") as [->|]; [|discriminate H].
    unfold filteredProducts. apply List.forallb_filter_id, forallb_forall.
    intros p _. unfold matchesSearch, matchesStatus. cbn [toLowerCase].
    rewrite includes_empty. reflexivity.
Qed.

(** X21. On titles and search terms within Latin-1, the strings of the
    model, the search ignores case: a product whose title holds the search
    term in any mix of upper and lower case, and whose status passes the
    status filter, is listed.  Beyond Latin-1 the lower-casing of JavaScript
    depends on the context (a final sigma) and is no longer a map of single
    code units; nothing is stated there. *)
Theorem search_finds_title (searchTerm filterStatus : string)
    (products : list ImportedProduct) (product : ImportedProduct)
    (before found after : string) :
  product ∈ products ->
  ip_title product = before +:+ found +:+ after ->
  toLowerCase found = toLowerCase searchTerm ->
  filterStatus = "ALL" \/ ip_status product = filterStatus ->
  product ∈ filteredProducts searchTerm filterStatus products.
Proof.
  intros Hin Htitle Hfound Hstatus. unfold filteredProducts.
  apply list_elem_of_In, filter_In. split; [apply list_elem_of_In, Hin|].
  apply andb_true_iff. split.
  - unfold matchesSearch. rewrite Htitle, !toLowerCase_app, Hfound, includes_app.
    reflexivity.
  - unfold matchesStatus. destruct Hstatus as [-> | <-].
    + reflexivity.
    + rewrite String.eqb_refl. apply orb_true_r.
Qed.

Lemma search_finds_title_witness :
  {| ip_id := "1"; ip_title := "Vintage CAMERA Lens"; ip_ebayItemId := None;
     ip_status := "DRAFT" |}
  ∈ filteredProducts "camera" "DRAFT"
      [ {| ip_id := "0"; ip_title := "Tripod"; ip_ebayItemId := Some "123";
           ip_status := "ACTIVE" |};
        {| ip_id := "1"; ip_title := "Vintage CAMERA Lens"; ip_ebayItemId := None;
           ip_status := "DRAFT" |} ].
Proof.
  apply (search_finds_title "camera" "DRAFT" _ _ "Vintage " "CAMERA" " Lens").
  - apply list_elem_of_further, list_elem_of_here.
  - reflexivity.
  - reflexivity.
  - right. reflexivity.
Defined.

(** X22. "Select All" compares only the two lengths.  When they differ it
    selects every listed product, after which the box is checked (if anything
    is listed) and a second use clears the selection; when they agree it
    clears the selection, whichever products were selected. *)
Theorem selectAll_toggles (selectedProducts : list string)
    (listed : list ImportedProduct) :
  (length selectedProducts <> length listed ->
   selectAll selectedProducts listed = map ip_id listed
   /\ (listed <> [] ->
       selectAllChecked (selectAll selectedProducts listed) listed = true)
   /\ selectAll (selectAll selectedProducts listed) listed = [])
  /\ (length selectedProducts = length listed ->
      selectAll selectedProducts listed = []).
Proof.
  unfold selectAll, selectAllChecked. split.
  - intros Hne. apply Nat.eqb_neq in Hne. rewrite Hne.
    rewrite length_map, Nat.eqb_refl. repeat split.
    intros Hl. destruct listed; [contradiction|reflexivity].
  - intros Heq. apply Nat.eqb_eq in Heq. rewrite Heq. reflexivity.
Qed.

(** ** The settings page *)

(** X23. What the settings form holds is what the action saves: the two
    check boxes are saved as they are, the date of acceptance is set exactly
    when the terms are accepted, an empty pricing mode becomes "MULTIPLIER",
    an empty collection becomes [null], and the pricing value is parsed from
    its text, or from "1.0" when the text is empty. *)
Theorem settings_round_trip {Date : Type} (numberToString : float -> string)
    (parseFloat : string -> float) (now : Date) (st : SettingsState) :
  let saved := actionData parseFloat now (handleSubmit numberToString st) in
  autoPublish saved = st_autoPublish st
  /\ termsAccepted saved = st_termsAccepted st
  /\ termsAcceptedAt saved = (if st_termsAccepted st then Some now else None)
  /\ pricingMode saved
     = (if String.eqb (st_pricingMode st) "" then "MULTIPLIER" else st_pricingMode st)
  /\ defaultCollectionId saved
     = (if String.eqb (st_defaultCollectionId st) "" then None
        else Some (st_defaultCollectionId st))
  /\ pricingValue saved
     = parseFloat (if String.eqb (numberToString (st_pricingValue st)) "" then "1.0"
                   else numberToString (st_pricingValue st)).
Proof.
  destruct st as [mode val coll auto terms]. cbn.
  unfold is_true, get_or. cbn.
  repeat split; try reflexivity.
  - destruct auto; reflexivity.
  - destruct terms; reflexivity.
  - destruct terms; reflexivity.
Qed.
